(** * A GraphQL library backend: resolvers of [index.js]

    The server of [index.js] is a thin layer of resolvers over three
    mongoose models ([Book], [Author], [User]), a JSON web token facility
    and an in-process publish/subscribe channel.  The resolvers are embedded
    here as computations in a state-and-exception monad over a [World] made
    of the three collections, the supply of fresh object identifiers and the
    registered subscription iterators.  An exception keeps the writes that
    happened before it, as a rejected promise does in the source. *)

From Stdlib Require Import String Ascii List ZArith Bool Arith Lia.
Import ListNotations.
Open Scope string_scope.

(** ** JavaScript strings and truthiness *)

Module JS.

(** [ToBoolean] of a value that is [undefined]/[null] or a string: the
    empty string is falsy as well. *)
Definition truthy_string (v : option string) : bool :=
  match v with
  | None => false
  | Some s => negb (s =? "")
  end.

Definition lower_ascii (c : ascii) : ascii :=
  let n := nat_of_ascii c in
  if ((65 <=? n) && (n <=? 90))%nat then ascii_of_nat (n + 32) else c.

Fixpoint toLowerCase (s : string) : string :=
  match s with
  | EmptyString => EmptyString
  | String c r => String (lower_ascii c) (toLowerCase r)
  end.

(** [s.startsWith(p)] *)
Definition startsWith (s p : string) : bool := String.prefix p s.

(** [s.substring(n)]: the characters from index [n] on. *)
Fixpoint substring_from (n : nat) (s : string) : string :=
  match n, s with
  | O, _ => s
  | S _, EmptyString => EmptyString
  | S m, String _ r => substring_from m r
  end.

End JS.

(** ** Documents *)

Definition ObjectId := nat.

Module Author.
Record t := mk
  { _id : ObjectId;
    name : string;
    born : option Z;
    books : list ObjectId }.

Definition set_books (a : t) (bs : list ObjectId) : t :=
  {| _id := _id a; name := name a; born := born a; books := bs |}.

Definition set_born (a : t) (b : option Z) : t :=
  {| _id := _id a; name := name a; born := b; books := books a |}.
End Author.

Module Book.
(** [author] is empty between [new Book({...args})] and the assignment
    [addedBook.author = author._id]: the author NAME of the arguments is
    not a reference, and nothing reads the field in between. *)
Record t := mk
  { _id : ObjectId;
    title : string;
    published : Z;
    author : option ObjectId;
    genres : list (option string) }.

Definition set_author (b : t) (a : ObjectId) : t :=
  {| _id := _id b; title := title b; published := published b;
     author := Some a; genres := genres b |}.

(** The [filters] object that [allBooks] builds: each key is optional. *)
Record filters := mkFilters
  { f_author : option ObjectId;
    f_genres_in : option string }.

Definition string_opt_eqb (x : option string) (g : string) : bool :=
  match x with
  | Some s => s =? g
  | None => false
  end.

(** [{ genres: { $in: g } }] on an array field: some element equals [g]. *)
Definition genres_in (g : string) (b : t) : bool :=
  existsb (fun x => string_opt_eqb x g) (genres b).

Definition author_is (a : ObjectId) (b : t) : bool :=
  match author b with
  | Some i => (i =? a)%nat
  | None => false
  end.

Definition matches (f : filters) (b : t) : bool :=
  (match f_author f with Some a => author_is a b | None => true end)
  && (match f_genres_in f with Some g => genres_in g b | None => true end).
End Book.

Module User.
Record t := mk
  { _id : ObjectId;
    username : string;
    favoriteGenre : string }.
End User.

(** A Book after [populate("author")]: the reference replaced by the
    Author record it points to, or by null when no such record exists. *)
Module Populated.
Record t := mk
  { doc : Book.t;
    author : option Author.t }.
End Populated.

(** ** Arguments, context, tokens *)

Module AllBooksArgs.
Record t := mk { author : option string; genre : option string }.
End AllBooksArgs.

Module AddBookArgs.
Record t := mk
  { title : string;
    author : string;
    published : Z;
    genres : list (option string) }.
End AddBookArgs.

Module EditAuthorArgs.
Record t := mk { name : string; setBornTo : Z }.
End EditAuthorArgs.

Module CreateUserArgs.
Record t := mk { username : string; favoriteGenre : string }.
End CreateUserArgs.

Module LoginArgs.
Record t := mk { username : string; password : string }.
End LoginArgs.

Module UserForToken.
Record t := mk { username : string; id : ObjectId }.
End UserForToken.

Module Token.
Record t := mk { value : string }.
End Token.

Module Context.
Record t := mk { currentUser : option User.t }.
End Context.

Module Request.
(** [req.headers.authorization] *)
Record t := mk { authorization : option string }.
End Request.

(** ** Errors *)

Inductive Args :=
| ArgsAddBook (a : AddBookArgs.t)
| ArgsEditAuthor (a : EditAuthorArgs.t)
| ArgsCreateUser (a : CreateUserArgs.t).

Inductive Error :=
| AuthenticationError (message : string)
| UserInputError (message : string) (invalidArgs : option Args)
| TypeError (message : string)
| MongooseError (message : string)
| JsonWebTokenError (message : string).

(** [error.message] *)
Definition message (e : Error) : string :=
  match e with
  | AuthenticationError m => m
  | UserInputError m _ => m
  | TypeError m => m
  | MongooseError m => m
  | JsonWebTokenError m => m
  end.

(** ** The world *)

Record Database := mkDatabase
  { Book_collection : list Book.t;
    Author_collection : list Author.t;
    User_collection : list User.t }.

(** One iterator of [pubsub.asyncIterator(names)], as the library keeps
    it: the events it is for, whether it has registered its listener with
    the channel ([allSubscribed], set by the first call of [next]), the
    number of calls of [next] still waiting for a value, and the payloads
    pushed to it that no call of [next] has taken yet.  [received] is the
    trace of what the calls of [next] were answered with, oldest first. *)
Record AsyncIterator := mkAsyncIterator
  { eventNames : list string;
    allSubscribed : bool;
    pullQueue : nat;
    pushQueue : list Populated.t;
    received : list Populated.t }.

Record World := mkWorld
  { db : Database;
    nextObjectId : nat;
    pubsub : list AsyncIterator }.

Definition set_db (w : World) (d : Database) : World :=
  {| db := d; nextObjectId := nextObjectId w; pubsub := pubsub w |}.

(** ** The monad of resolvers *)

Definition M (A : Type) : Type := World -> (Error + A) * World.

Definition ret {A : Type} (a : A) : M A := fun w => (inr a, w).

Definition bind {A B : Type} (c : M A) (k : A -> M B) : M B :=
  fun w =>
    match c w with
    | (inr a, w') => k a w'
    | (inl e, w') => (inl e, w')
    end.

Definition throw {A : Type} (e : Error) : M A := fun w => (inl e, w).

Definition try_catch {A : Type} (c : M A) (h : Error -> M A) : M A :=
  fun w =>
    match c w with
    | (inr a, w') => (inr a, w')
    | (inl e, w') => h e w'
    end.

Definition get_db : M Database := fun w => (inr (db w), w).

Definition put_db (d : Database) : M unit := fun w => (inr tt, set_db w d).

Declare Scope resolver_scope.
Delimit Scope resolver_scope with resolver.
Notation "x <- c ;; k" := (bind c (fun x => k))
  (at level 100, c at next level, right associativity) : resolver_scope.
Notation "c ;;; k" := (bind c (fun _ => k))
  (at level 100, right associativity) : resolver_scope.
Open Scope resolver_scope.

(** [array.forEach(f)] with a callback that may throw. *)
Fixpoint forEach {A : Type} (l : list A) (f : A -> M unit) : M unit :=
  match l with
  | [] => ret tt
  | x :: r => f x ;;; forEach r f
  end.

(** A fresh [ObjectId], as the constructor of a document draws one. *)
Definition new_ObjectId : M ObjectId :=
  fun w =>
    (inr (nextObjectId w),
     {| db := db w; nextObjectId := S (nextObjectId w); pubsub := pubsub w |}).

(** ** The mongoose models over the collections *)

(** [updateOne({_id}, ...)]: the first document selected is replaced. *)
Fixpoint replace_first {A : Type} (p : A -> bool) (x : A) (l : list A)
  : list A :=
  match l with
  | [] => []
  | y :: r => if p y then x :: r else y :: replace_first p x r
  end.

Definition has_name (n : string) (a : Author.t) : bool := Author.name a =? n.
Definition has_author_id (i : ObjectId) (a : Author.t) : bool :=
  (Author._id a =? i)%nat.
Definition has_username (n : string) (u : User.t) : bool :=
  User.username u =? n.
Definition has_user_id (i : ObjectId) (u : User.t) : bool :=
  (User._id u =? i)%nat.

(** [Author.findOne({ name })] *)
Definition Author_findOne (n : string) : M (option Author.t) :=
  d <- get_db ;; ret (find (has_name n) (Author_collection d)).

(** The lookup behind [populate("author")]. *)
Definition Author_findById (i : ObjectId) : M (option Author.t) :=
  d <- get_db ;; ret (find (has_author_id i) (Author_collection d)).

(** [Author.find({})] *)
Definition Author_find_all : M (list Author.t) :=
  d <- get_db ;; ret (Author_collection d).

(** [User.findOne({ username })] *)
Definition User_findOne (n : string) : M (option User.t) :=
  d <- get_db ;; ret (find (has_username n) (User_collection d)).

(** [User.findById(id)] *)
Definition User_findById (i : ObjectId) : M (option User.t) :=
  d <- get_db ;; ret (find (has_user_id i) (User_collection d)).

(** [Book.find(filters)] *)
Definition Book_find (f : Book.filters) : M (list Book.t) :=
  d <- get_db ;; ret (filter (Book.matches f) (Book_collection d)).

(** [book.populate("author")] *)
Definition populate_author (b : Book.t) : M Populated.t :=
  match Book.author b with
  | None => ret {| Populated.doc := b; Populated.author := None |}
  | Some i =>
      a <- Author_findById i ;;
      ret {| Populated.doc := b; Populated.author := a |}
  end.

Fixpoint populate_all (l : list Book.t) : M (list Populated.t) :=
  match l with
  | [] => ret []
  | b :: r =>
      p <- populate_author b ;;
      ps <- populate_all r ;;
      ret (p :: ps)
  end.

(** [new Book({ ...args })] *)
Definition new_Book (args : AddBookArgs.t) : M Book.t :=
  i <- new_ObjectId ;;
  ret {| Book._id := i;
         Book.title := AddBookArgs.title args;
         Book.published := AddBookArgs.published args;
         Book.author := None;
         Book.genres := AddBookArgs.genres args |}.

(** [new Author({ name, born })]: the list of books starts empty. *)
Definition new_Author (n : string) (b : option Z) : M Author.t :=
  i <- new_ObjectId ;;
  ret {| Author._id := i; Author.name := n; Author.born := b;
         Author.books := [] |}.

(** [new User({ username, favoriteGenre })] *)
Definition new_User (args : CreateUserArgs.t) : M User.t :=
  i <- new_ObjectId ;;
  ret {| User._id := i;
         User.username := CreateUserArgs.username args;
         User.favoriteGenre := CreateUserArgs.favoriteGenre args |}.

(** Writes to the collections: a new document goes to the end of its
    collection; an Author that is already stored is updated in place. *)
Definition insert_book (d : Database) (b : Book.t) : Database :=
  {| Book_collection := Book_collection d ++ [b];
     Author_collection := Author_collection d;
     User_collection := User_collection d |}.

Definition save_author (isNew : bool) (d : Database) (a : Author.t)
  : Database :=
  {| Book_collection := Book_collection d;
     Author_collection :=
       if isNew then Author_collection d ++ [a]
       else replace_first (has_author_id (Author._id a)) a
              (Author_collection d);
     User_collection := User_collection d |}.

Definition insert_user (d : Database) (u : User.t) : Database :=
  {| Book_collection := Book_collection d;
     Author_collection := Author_collection d;
     User_collection := User_collection d ++ [u] |}.

(** ** The publish/subscribe channel *)

Definition listens (trigger : string) (it : AsyncIterator) : bool :=
  existsb (fun n => n =? trigger) (eventNames it).

(** [pushValue(event)]: the oldest waiting call of [next] is answered
    with the event; without one the event waits in the push queue. *)
Definition pushValue (payload : Populated.t) (it : AsyncIterator)
  : AsyncIterator :=
  match pullQueue it with
  | S n =>
      {| eventNames := eventNames it; allSubscribed := allSubscribed it;
         pullQueue := n; pushQueue := pushQueue it;
         received := received it ++ [payload] |}
  | O =>
      {| eventNames := eventNames it; allSubscribed := allSubscribed it;
         pullQueue := O; pushQueue := pushQueue it ++ [payload];
         received := received it |}
  end.

(** [pullValue()]: the call of [next] takes the oldest waiting payload, or
    waits itself. *)
Definition pullValue (it : AsyncIterator) : AsyncIterator :=
  match pushQueue it with
  | x :: q =>
      {| eventNames := eventNames it; allSubscribed := allSubscribed it;
         pullQueue := pullQueue it; pushQueue := q;
         received := received it ++ [x] |}
  | [] =>
      {| eventNames := eventNames it; allSubscribed := allSubscribed it;
         pullQueue := S (pullQueue it); pushQueue := [];
         received := received it |}
  end.

(** [subscribeAll()]: the listener of the iterator is registered. *)
Definition subscribeAll (it : AsyncIterator) : AsyncIterator :=
  {| eventNames := eventNames it; allSubscribed := true;
     pullQueue := pullQueue it; pushQueue := pushQueue it;
     received := received it |}.

(** [iterator.next()]: the first call registers the listener, then every
    call pulls. *)
Definition next (it : AsyncIterator) : AsyncIterator :=
  pullValue (if allSubscribed it then it else subscribeAll it).

(** What an emitted event does to one iterator: only a registered
    listener for the trigger is called. *)
Definition push (trigger : string) (payload : Populated.t)
  (it : AsyncIterator) : AsyncIterator :=
  if allSubscribed it && listens trigger it
  then pushValue payload it
  else it.

(** [pubsub.publish(trigger, payload)]: the event is emitted to every
    listener registered for the trigger. *)
Definition PubSub_publish (trigger : string) (payload : Populated.t)
  : M unit :=
  fun w =>
    (inr tt,
     {| db := db w; nextObjectId := nextObjectId w;
        pubsub := map (push trigger payload) (pubsub w) |}).

(** [pubsub.asyncIterator(names)]: a new iterator, not yet registered,
    with nothing waiting; the result is its position among the iterators
    made so far. *)
Definition PubSub_asyncIterator (names : list string) : M nat :=
  fun w =>
    (inr (length (pubsub w)),
     {| db := db w; nextObjectId := nextObjectId w;
        pubsub :=
          pubsub w ++ [{| eventNames := names; allSubscribed := false;
                          pullQueue := O; pushQueue := [];
                          received := [] |}] |}).

Fixpoint update_at {A : Type} (k : nat) (f : A -> A) (l : list A)
  : list A :=
  match l, k with
  | [], _ => []
  | x :: r, O => f x :: r
  | x :: r, S j => x :: update_at j f r
  end.

(** One call of [next] on the iterator at position [k], as the GraphQL
    runtime makes it while it serves the subscription. *)
Definition AsyncIterator_next (k : nat) : M unit :=
  fun w =>
    (inr tt,
     {| db := db w; nextObjectId := nextObjectId w;
        pubsub := update_at k next (pubsub w) |}).



(** ** Values a count resolver can hand to the GraphQL runtime *)

Inductive Model := BookModel | AuthorModel | UserModel.

Inductive Value :=
| Number (n : Z)
| CountDocumentsFunction (collection : Model).

(** What the driver's [countDocuments] yields once it is called. *)
Definition countDocuments (m : Model) : M Z :=
  d <- get_db ;;
  ret (Z.of_nat match m with
                | BookModel => length (Book_collection d)
                | AuthorModel => length (Author_collection d)
                | UserModel => length (User_collection d)
                end).

(** ** Calls a client can make, and the pulls of the runtime *)

Inductive Call :=
| CallAddBook (args : AddBookArgs.t) (ctx : Context.t)
| CallEditAuthor (args : EditAuthorArgs.t) (ctx : Context.t)
| CallCreateUser (args : CreateUserArgs.t)
| CallLogin (args : LoginArgs.t)
| CallAllBooks (args : AllBooksArgs.t)
| CallSubscribe
| CallNext (iterator : nat).

(** ** The resolvers *)

Section Resolvers.

(** The schemas of [models/] and the configuration of [utils/config] are
    parameters: the synchronous validation of each model, the reasons for
    which the store rejects a [save], the signing secret, and the two
    functions of the token library. *)
Variable Book_validateSync : Book.t -> option Error.
Variable Author_validateSync : Author.t -> option Error.
Variable Book_save_rejects : Database -> Book.t -> option Error.
Variable Author_save_rejects : Database -> Author.t -> option Error.
Variable User_save_rejects : Database -> User.t -> option Error.
Variable JWT_SECRET : string.
Variable jwt_sign : UserForToken.t -> string -> string.
Variable jwt_verify : string -> string -> Error + UserForToken.t.

(** [book.save()] of a new document. *)
Definition Book_save (b : Book.t) : M unit :=
  d <- get_db ;;
  match Book_save_rejects d b with
  | Some e => throw e
  | None => put_db (insert_book d b)
  end.

(** [author.save()]: an insertion for a document made by [new Author],
    an update of the stored document with the same [_id] otherwise. *)
Definition Author_save (isNew : bool) (a : Author.t) : M unit :=
  d <- get_db ;;
  match Author_save_rejects d a with
  | Some e => throw e
  | None => put_db (save_author isNew d a)
  end.

(** [user.save()] of a new document. *)
Definition User_save (u : User.t) : M unit :=
  d <- get_db ;;
  match User_save_rejects d u with
  | Some e => throw e
  | None => put_db (insert_user d u)
  end.

(** *** Query *)

(** [bookCount: async () => Book.collection.countDocuments] *)
Definition Query_bookCount : M Value :=
  ret (CountDocumentsFunction BookModel).

(** [authorCount: async () => Author.collection.countDocuments] *)
Definition Query_authorCount : M Value :=
  ret (CountDocumentsFunction AuthorModel).

Definition Query_allBooks (args : AllBooksArgs.t) : M (list Populated.t) :=
  filters_author <-
    (if JS.truthy_string (AllBooksArgs.author args) then
       match AllBooksArgs.author args with
       | Some n =>
           author <- Author_findOne n ;;
           match author with
           | Some a => ret (Some (Author._id a))
           | None => throw (TypeError "Cannot read property '_id' of null")
           end
       | None => ret None
       end
     else ret None) ;;
  let filters_genres :=
    if JS.truthy_string (AllBooksArgs.genre args)
    then AllBooksArgs.genre args else None in
  found <- Book_find {| Book.f_author := filters_author;
                        Book.f_genres_in := filters_genres |} ;;
  populate_all found.

Definition Query_allAuthors : M (list Author.t) := Author_find_all.

Definition Query_me (context : Context.t) : M User.t :=
  match Context.currentUser context with
  | None => throw (AuthenticationError "not authenticated")
  | Some currentUser => ret currentUser
  end.

(** *** Mutation *)

Definition Mutation_createUser (args : CreateUserArgs.t) : M User.t :=
  user <- new_User args ;;
  try_catch (User_save user)
    (fun error =>
       throw (UserInputError (message error) (Some (ArgsCreateUser args))))
  ;;; ret user.

Definition Mutation_login (args : LoginArgs.t) : M Token.t :=
  user <- User_findOne (LoginArgs.username args) ;;
  match user with
  | None => throw (UserInputError "wrong credentials" None)
  | Some user =>
      if negb (LoginArgs.password args =? "secred")
      then throw (UserInputError "wrong credentials" None)
      else
        let userForToken :=
          {| UserForToken.username := User.username user;
             UserForToken.id := User._id user |} in
        ret {| Token.value := jwt_sign userForToken JWT_SECRET |}
  end.

(** The body of the [try] block of [addBook]; its result is the Book as
    the block leaves it. *)
Definition addBook_try (args : AddBookArgs.t) (addedBook : Book.t)
  : M Book.t :=
  found <- Author_findOne (AddBookArgs.author args) ;;
  author <-
    match found with
    | Some a => ret (false, a)
    | None =>
        a <- new_Author (AddBookArgs.author args) None ;; ret (true, a)
    end ;;
  let isNew := fst author in
  let author :=
    Author.set_books (snd author)
      (Author.books (snd author) ++ [Book._id addedBook]) in
  let addedBook := Book.set_author addedBook (Author._id author) in
  let errors :=
    [Book_validateSync addedBook; Author_validateSync author] in
  forEach errors
    (fun error =>
       match error with
       | Some e =>
           throw (UserInputError (message e) (Some (ArgsAddBook args)))
       | None => ret tt
       end) ;;;
  Book_save addedBook ;;;
  Author_save isNew author ;;;
  ret addedBook.

Definition Mutation_addBook (args : AddBookArgs.t) (context : Context.t)
  : M Populated.t :=
  match Context.currentUser context with
  | None => throw (AuthenticationError "not authenticated")
  | Some _ =>
      addedBook <- new_Book args ;;
      addedBook <-
        try_catch (addBook_try args addedBook)
          (fun error =>
             throw (UserInputError (message error)
                      (Some (ArgsAddBook args)))) ;;
      response <- populate_author addedBook ;;
      PubSub_publish "BOOK_ADDED" response ;;;
      ret response
  end.

Definition Mutation_editAuthor (args : EditAuthorArgs.t)
  (context : Context.t) : M Author.t :=
  match Context.currentUser context with
  | None => throw (AuthenticationError "not authenticated")
  | Some _ =>
      editedAuthor <- Author_findOne (EditAuthorArgs.name args) ;;
      match editedAuthor with
      | None => throw (UserInputError "Author doesn't exist" None)
      | Some editedAuthor =>
          try_catch
            (let editedAuthor :=
               Author.set_born editedAuthor
                 (Some (EditAuthorArgs.setBornTo args)) in
             Author_save false editedAuthor ;;;
             ret editedAuthor)
            (fun error =>
               throw (UserInputError (message error)
                        (Some (ArgsEditAuthor args))))
      end
  end.

(** *** Author *)

Definition Author_bookCount (parent : Author.t) : nat :=
  length (Author.books parent).

(** *** Subscription *)

Definition Subscription_bookAdded_subscribe : M nat :=
  PubSub_asyncIterator ["BOOK_ADDED"].

(** *** The context of a request *)

(** [undefined] is the result when the header is absent or is not a
    bearer header. *)
Definition context (req : option Request.t) : M (option Context.t) :=
  let auth :=
    match req with
    | Some r => Request.authorization r
    | None => None
    end in
  match auth with
  | Some a =>
      if JS.truthy_string auth
         && JS.startsWith (JS.toLowerCase a) "bearer "
      then
        currentUser <-
          try_catch
            (decodedToken <-
               (match jwt_verify (JS.substring_from 7 a) JWT_SECRET with
                | inl e => throw e
                | inr t => ret t
                end) ;;
             User_findById (UserForToken.id decodedToken))
            (fun e => ret None) ;;
        ret (Some {| Context.currentUser := currentUser |})
      else ret None
  | None => ret None
  end.

(** *** Sequences of calls *)

(** One call, run to its end: the world it leaves and the Book it
    announced on the channel, if any. *)
Definition perform (c : Call) (w : World) : World * list Populated.t :=
  match c with
  | CallAddBook args ctx =>
      match Mutation_addBook args ctx w with
      | (inr book, w') => (w', [book])
      | (inl _, w') => (w', [])
      end
  | CallEditAuthor args ctx => (snd (Mutation_editAuthor args ctx w), [])
  | CallCreateUser args => (snd (Mutation_createUser args w), [])
  | CallLogin args => (snd (Mutation_login args w), [])
  | CallAllBooks args => (snd (Query_allBooks args w), [])
  | CallSubscribe => (snd (Subscription_bookAdded_subscribe w), [])
  | CallNext k => (snd (AsyncIterator_next k w), [])
  end.

(** Calls completing one after the other: the final world and the Books
    announced, in the order in which their mutations completed. *)
Fixpoint run (cs : list Call) (w : World) : World * list Populated.t :=
  match cs with
  | [] => (w, [])
  | c :: r =>
      let (w1, e1) := perform c w in
      let (w2, e2) := run r w1 in
      (w2, (e1 ++ e2)%list)
  end.

End Resolvers.

(** ** The documents that [addBook] builds in memory *)

(** The Author that [addBook] finds or makes, before the new reference is
    appended; a new Author takes the identifier after the Book's. *)
Definition addBook_found_or_new (args : AddBookArgs.t) (w : World)
  : Author.t :=
  match find (has_name (AddBookArgs.author args))
          (Author_collection (db w)) with
  | Some a => a
  | None =>
      {| Author._id := S (nextObjectId w);
         Author.name := AddBookArgs.author args;
         Author.born := None;
         Author.books := [] |}
  end.

(** The Author as [addBook] validates and saves it. *)
Definition addBook_author (args : AddBookArgs.t) (w : World) : Author.t :=
  let a := addBook_found_or_new args w in
  Author.set_books a (Author.books a ++ [nextObjectId w]).

(** The Book as [addBook] validates and saves it. *)
Definition addBook_book (args : AddBookArgs.t) (w : World) : Book.t :=
  {| Book._id := nextObjectId w;
     Book.title := AddBookArgs.title args;
     Book.published := AddBookArgs.published args;
     Book.author := Some (Author._id (addBook_found_or_new args w));
     Book.genres := AddBookArgs.genres args |}.

(** Whether [addBook] makes the Author, and the supply of identifiers
    after its constructors ran. *)
Definition addBook_isNew (args : AddBookArgs.t) (w : World) : bool :=
  match find (has_name (AddBookArgs.author args))
          (Author_collection (db w)) with
  | Some _ => false
  | None => true
  end.

Definition addBook_nextObjectId (args : AddBookArgs.t) (w : World) : nat :=
  if addBook_isNew args w then S (S (nextObjectId w))
  else S (nextObjectId w).

(** The value of [populate_author] on a database. *)
Definition populated (d : Database) (b : Book.t) : Populated.t :=
  {| Populated.doc := b;
     Populated.author :=
       match Book.author b with
       | Some i => find (has_author_id i) (Author_collection d)
       | None => None
       end |}.

(** The first error of the list, as [forEach] meets it. *)
Fixpoint first_error (l : list (option Error)) : option Error :=
  match l with
  | [] => None
  | Some e :: _ => Some e
  | None :: r => first_error r
  end.

(** ** Well-formed worlds *)

Definition author_ids (w : World) : list ObjectId :=
  map Author._id (Author_collection (db w)).

(** Identifiers of stored Authors are pairwise distinct and were all drawn
    from the supply already. *)
Definition wf_world (w : World) : Prop :=
  NoDup (author_ids w)
  /\ Forall (fun i => i < nextObjectId w) (author_ids w).

(** A step that announces no Book: it keeps the registered iterators,
    keeps or updates the stored Authors under their identifiers, and never
    gives an identifier back to the supply. *)
Definition quiet (w w' : World) : Prop :=
  pubsub w' = pubsub w
  /\ author_ids w' = author_ids w
  /\ nextObjectId w <= nextObjectId w'.




Definition empty_world : World :=
  {| db := {| Book_collection := []; Author_collection := [];
              User_collection := [] |};
     nextObjectId := 0;
     pubsub := [] |}.

(** ** Sample data *)

Module Sample.

Definition fowler : Author.t :=
  {| Author._id := 0; Author.name := "Martin Fowler";
     Author.born := Some 1963%Z; Author.books := [1] |}.

Definition refactoring : Book.t :=
  {| Book._id := 1; Book.title := "Refactoring";
     Book.published := 1999%Z; Book.author := Some 0;
     Book.genres := [Some "refactoring"] |}.

Definition tester : User.t :=
  {| User._id := 2; User.username := "test";
     User.favoriteGenre := "refactoring" |}.

Definition world : World :=
  {| db := {| Book_collection := [refactoring];
              Author_collection := [fowler];
              User_collection := [tester] |};
     nextObjectId := 3;
     pubsub := [{| eventNames := ["BOOK_ADDED"]; allSubscribed := true;
                   pullQueue := 1; pushQueue := []; received := [] |}] |}.

Definition anonymous : Context.t := {| Context.currentUser := None |}.
Definition logged_in : Context.t :=
  {| Context.currentUser := Some tester |}.

Definition patterns : AddBookArgs.t :=
  {| AddBookArgs.title := "Refactoring to patterns";
     AddBookArgs.author := "Joshua Kerievsky";
     AddBookArgs.published := 2008%Z;
     AddBookArgs.genres := [Some "refactoring"; Some "patterns"] |}.

Definition untitled : AddBookArgs.t :=
  {| AddBookArgs.title := "";
     AddBookArgs.author := "Martin Fowler";
     AddBookArgs.published := 2008%Z;
     AddBookArgs.genres := [] |}.

(** A Book schema that requires a title, an Author schema that requires
    a name of at least four characters. *)
Definition Book_validateSync (b : Book.t) : option Error :=
  if Book.title b =? "" then Some (MongooseError "title is required")
  else None.

Definition Author_validateSync (a : Author.t) : option Error :=
  if (String.length (Author.name a) <? 4)%nat
  then Some (MongooseError "name is too short")
  else None.

Definition accept_book (_ : Database) (_ : Book.t) : option Error := None.
Definition accept_author (_ : Database) (_ : Author.t) : option Error :=
  None.

Definition JWT_SECRET : string := "s3cr3t".

(** A stand-in for the token library: the token is the user name after
    the secret. *)
Definition jwt_sign (p : UserForToken.t) (secret : string) : string :=
  secret ++ "." ++ UserForToken.username p.

Definition jwt_verify (token secret : string)
  : Error + UserForToken.t :=
  if token =? "s3cr3t.test"
  then inr {| UserForToken.username := "test"; UserForToken.id := 2 |}
  else if token =? "s3cr3t.ghost"
  then inr {| UserForToken.username := "ghost"; UserForToken.id := 7 |}
  else inl (JsonWebTokenError "invalid token").

Definition accept_user (_ : Database) (_ : User.t) : option Error := None.

(** The resolvers over these schemas and this token library. *)
Definition addBook :=
  Mutation_addBook Book_validateSync Author_validateSync accept_book
    accept_author.
Definition editAuthor := Mutation_editAuthor accept_author.
Definition login := Mutation_login JWT_SECRET jwt_sign.
Definition request_context := context JWT_SECRET jwt_verify.
Definition run_calls :=
  run Book_validateSync Author_validateSync accept_book accept_author
    accept_user JWT_SECRET jwt_sign.

Definition analysis_patterns : AddBookArgs.t :=
  {| AddBookArgs.title := "Analysis Patterns";
     AddBookArgs.author := "Martin Fowler";
     AddBookArgs.published := 1996%Z;
     AddBookArgs.genres := [Some "patterns"] |}.

Definition kerievsky : Author.t :=
  {| Author._id := 4; Author.name := "Joshua Kerievsky";
     Author.born := None; Author.books := [3] |}.

Definition refactoring_to_patterns : Book.t :=
  {| Book._id := 3; Book.title := "Refactoring to patterns";
     Book.published := 2008%Z; Book.author := Some 4;
     Book.genres := [Some "refactoring"; Some "patterns"] |}.

End Sample.

(** ** Statements shared by a property and its boundary case *)

(** [allBooks(genre: g)] answers with exactly the stored Books whose genre
    list contains [g]. *)
Definition allBooks_genre_exact (g : string) (w : World) : Prop :=
  exists l,
    Query_allBooks {| AllBooksArgs.author := None;
                      AllBooksArgs.genre := Some g |} w = (inr l, w)
    /\ (forall b, In b (map Populated.doc l)
                  <-> In b (Book_collection (db w))
                      /\ In (Some g) (Book.genres b)).

(** [allBooks(author: n)] fails on reading [_id] of the missing Author. *)
Definition allBooks_unknown_author_fails (n : string)
  (genre : option string) (w : World) : Prop :=
  Query_allBooks {| AllBooksArgs.author := Some n;
                    AllBooksArgs.genre := genre |} w
  = (inl (TypeError "Cannot read property '_id' of null"), w).

(** ** Stored records are kept *)

(** An Author as stored later: same identifier, same name, and a list of
    books that extends the earlier one. *)
Definition author_kept (a a' : Author.t) : Prop :=
  Author._id a' = Author._id a
  /\ Author.name a' = Author.name a
  /\ exists bs, Author.books a' = (Author.books a ++ bs)%list.

(** Nothing stored is removed: Books and Users are only appended, and the
    Authors of before are still there, in their places. *)
Definition grows (w w' : World) : Prop :=
  (exists bs,
      Book_collection (db w') = (Book_collection (db w) ++ bs)%list)
  /\ (exists us,
         User_collection (db w') = (User_collection (db w) ++ us)%list)
  /\ (exists kept new,
         Author_collection (db w') = (kept ++ new)%list
         /\ Forall2 author_kept (Author_collection (db w)) kept).

(** The genre argument of [allBooks] as the filter sees it: an absent or
    empty argument lets every Book through. *)
Definition genre_lets_through (genre : option string) (b : Book.t) : Prop :=
  match genre with
  | None => True
  | Some g => g = "" \/ In (Some g) (Book.genres b)
  end.

(** ** A store that refuses to save Authors *)

Module Faulty.

Definition reject_author (_ : Database) (_ : Author.t) : option Error :=
  Some (MongooseError "Author validation failed").

Definition reject_book (_ : Database) (_ : Book.t) : option Error :=
  Some (MongooseError "Book validation failed").

Definition reject_user (_ : Database) (_ : User.t) : option Error :=
  Some (MongooseError "User validation failed").

Definition accept_all {A : Type} (_ : A) : option Error := None.

End Faulty.

(** * Properties *)

Create HintDb resolvers.
#[local] Hint Unfold bind ret throw try_catch get_db put_db set_db : resolvers.

Ltac run_resolver :=
  repeat autounfold with resolvers; cbn [fst snd].

Section Properties.

Variable Book_validateSync : Book.t -> option Error.
Variable Author_validateSync : Author.t -> option Error.
Variable Book_save_rejects : Database -> Book.t -> option Error.
Variable Author_save_rejects : Database -> Author.t -> option Error.
Variable User_save_rejects : Database -> User.t -> option Error.
Variable JWT_SECRET : string.
Variable jwt_sign : UserForToken.t -> string -> string.
Variable jwt_verify : string -> string -> Error + UserForToken.t.

Local Abbreviation addBook :=
  (Mutation_addBook Book_validateSync Author_validateSync
     Book_save_rejects Author_save_rejects).
Local Abbreviation editAuthor := (Mutation_editAuthor Author_save_rejects).
Local Abbreviation login := (Mutation_login JWT_SECRET jwt_sign).
Local Abbreviation request_context := (context JWT_SECRET jwt_verify).

(** *** Lookups *)

Lemma find_absent {A : Type} (p : A -> bool) (l : list A) :
  (forall x, In x l -> p x = false) -> find p l = None.
Proof.
  induction l as [|y r IH]; intros H; simpl; [reflexivity|].
  rewrite (H y (or_introl eq_refl)). apply IH.
  intros x Hx. apply H. now right.
Qed.

Lemma has_name_false n a : Author.name a <> n -> has_name n a = false.
Proof. intros H. unfold has_name. now apply String.eqb_neq. Qed.

Lemma has_username_false n u :
  User.username u <> n -> has_username n u = false.
Proof. intros H. unfold has_username. now apply String.eqb_neq. Qed.

Lemma has_user_id_false i u : User._id u <> i -> has_user_id i u = false.
Proof. intros H. unfold has_user_id. now apply Nat.eqb_neq. Qed.

(** *** Counts *)

(** C1 (as the code has it): for every world, [bookCount] and
    [authorCount] hand back the driver's [countDocuments] function
    itself, never the number of stored records; the number is what
    calling that function would have given. *)
Theorem count_resolvers_return_the_function (w : World) :
  Query_bookCount w = (inr (CountDocumentsFunction BookModel), w)
  /\ Query_authorCount w = (inr (CountDocumentsFunction AuthorModel), w)
  /\ (forall n, fst (Query_bookCount w) <> inr (Number n))
  /\ (forall n, fst (Query_authorCount w) <> inr (Number n))
  /\ fst (countDocuments BookModel w)
     = inr (Z.of_nat (length (Book_collection (db w))))
  /\ fst (countDocuments AuthorModel w)
     = inr (Z.of_nat (length (Author_collection (db w)))).
Proof.
  repeat split; try reflexivity; intros n H; discriminate H.
Qed.

(** *** Authentication *)

(** C2: [addBook] in a context without a current user fails with the
    authentication error and leaves the whole world as it was: no Book
    and no Author is written, nothing is published. *)
Theorem addBook_requires_current_user
  (args : AddBookArgs.t) (ctx : Context.t) (w : World) :
  Context.currentUser ctx = None ->
  addBook args ctx w = (inl (AuthenticationError "not authenticated"), w).
Proof.
  intros H. unfold Mutation_addBook. rewrite H. reflexivity.
Qed.

(** C5: [login] fails with the input error "wrong credentials", and
    returns no token, when no stored User has the user name or when the
    password is not the literal of the source; otherwise it returns the
    token signed from the user name and identifier of a stored User with
    that name.  The world is unchanged in both cases. *)
Theorem login_checks_user_and_literal (args : LoginArgs.t) (w : World) :
  ((forall u, In u (User_collection (db w)) ->
              User.username u <> LoginArgs.username args)
   \/ LoginArgs.password args <> "secred" ->
   login args w = (inl (UserInputError "wrong credentials" None), w))
  /\ ((exists u, In u (User_collection (db w))
                 /\ User.username u = LoginArgs.username args)
      /\ LoginArgs.password args = "secred" ->
      exists u,
        In u (User_collection (db w))
        /\ User.username u = LoginArgs.username args
        /\ login args w
           = (inr {| Token.value :=
                       jwt_sign
                         {| UserForToken.username := User.username u;
                            UserForToken.id := User._id u |}
                         JWT_SECRET |}, w)).
Proof.
  unfold Mutation_login, User_findOne. run_resolver. split.
  - intros [Hno | Hpw].
    + rewrite find_absent; [reflexivity|].
      intros u Hu. apply has_username_false. now apply Hno.
    + destruct (find _ _); [|reflexivity].
      apply String.eqb_neq in Hpw. now rewrite Hpw.
  - intros [[u [Hin Hname]] Hpw].
    destruct (find (has_username (LoginArgs.username args))
                (User_collection (db w))) as [v|] eqn:Hf.
    + apply find_some in Hf. destruct Hf as [Hv Hn].
      exists v. split; [exact Hv|]. split.
      * unfold has_username in Hn. now apply String.eqb_eq.
      * rewrite Hpw. reflexivity.
    + exfalso. apply (find_none _ _ Hf) in Hin.
      unfold has_username in Hin. apply String.eqb_neq in Hin.
      now apply Hin.
Qed.

(** C6: an authenticated [editAuthor] naming no stored Author fails with
    the input error "Author doesn't exist" and leaves the world as it
    was. *)
Theorem editAuthor_unknown_name
  (args : EditAuthorArgs.t) (ctx : Context.t) (w : World) :
  Context.currentUser ctx <> None ->
  (forall a, In a (Author_collection (db w)) ->
             Author.name a <> EditAuthorArgs.name args) ->
  editAuthor args ctx w
  = (inl (UserInputError "Author doesn't exist" None), w).
Proof.
  intros Hu Hno. unfold Mutation_editAuthor.
  destruct (Context.currentUser ctx); [|congruence].
  unfold Author_findOne. run_resolver.
  rewrite find_absent; [reflexivity|].
  intros a Ha. apply has_name_false. now apply Hno.
Qed.

(** C9: resolving the context of a request never throws and writes
    nothing, whatever the header.  With a bearer header whose token the
    library rejects, or whose identifier is that of no stored User, the
    context carries a null current user; the authentication error comes
    from the resolvers that ask for a current user ([me], [addBook],
    [editAuthor]) when they run in that context. *)
Theorem context_downgrades_silently (req : option Request.t) (w : World) :
  (exists c, request_context req w = (inr c, w))
  /\ (forall auth,
        req = Some {| Request.authorization := Some auth |} ->
        JS.startsWith (JS.toLowerCase auth) "bearer " = true ->
        (exists e,
            jwt_verify (JS.substring_from 7 auth) JWT_SECRET = inl e)
        \/ (exists t,
               jwt_verify (JS.substring_from 7 auth) JWT_SECRET = inr t
               /\ forall u, In u (User_collection (db w)) ->
                            User._id u <> UserForToken.id t) ->
        let ctx := {| Context.currentUser := None |} in
        request_context req w = (inr (Some ctx), w)
        /\ Query_me ctx w
            = (inl (AuthenticationError "not authenticated"), w)
        /\ (forall args,
               addBook args ctx w
               = (inl (AuthenticationError "not authenticated"), w))
        /\ (forall args,
               editAuthor args ctx w
               = (inl (AuthenticationError "not authenticated"), w))).
Proof.
  split.
  - unfold context. destruct req as [[[a|]]|]; try (eexists; reflexivity).
    cbn [Request.authorization].
    destruct (JS.truthy_string (Some a) && _); [|eexists; reflexivity].
    unfold User_findById. run_resolver.
    destruct (jwt_verify _ _); eexists; reflexivity.
  - intros auth -> Hb Hfail ctx. split; [|repeat split].
    unfold context. cbn [Request.authorization].
    assert (Ht : JS.truthy_string (Some auth) = true).
    { destruct auth; [discriminate Hb|reflexivity]. }
    rewrite Ht, Hb. cbn [andb].
    unfold User_findById. run_resolver.
    destruct Hfail as [[e He] | [t [Ht' Hno]]].
    + rewrite He. reflexivity.
    + rewrite Ht'. rewrite find_absent; [reflexivity|].
      intros u Hu. apply has_user_id_false. now apply Hno.
Qed.

(** *** Queries over Books *)

Lemma populate_author_eq (b : Book.t) (w : World) :
  populate_author b w = (inr (populated (db w) b), w).
Proof.
  unfold populate_author, populated, Author_findById.
  destruct (Book.author b); reflexivity.
Qed.

Lemma populate_all_eq (l : list Book.t) (w : World) :
  populate_all l w = (inr (map (populated (db w)) l), w).
Proof.
  induction l as [|b r IH]; [reflexivity|].
  cbn [populate_all map]. unfold bind at 1.
  rewrite populate_author_eq. unfold bind at 1. rewrite IH.
  reflexivity.
Qed.

Lemma map_doc_populated (d : Database) (l : list Book.t) :
  map Populated.doc (map (populated d) l) = l.
Proof.
  induction l as [|b r IH]; [reflexivity|].
  cbn [map]. rewrite IH. reflexivity.
Qed.

Lemma genres_in_iff (g : string) (b : Book.t) :
  Book.genres_in g b = true <-> In (Some g) (Book.genres b).
Proof.
  unfold Book.genres_in. rewrite existsb_exists. split.
  - intros [[s|] [Hin Heq]]; [|discriminate Heq].
    cbn in Heq. apply String.eqb_eq in Heq. now subst s.
  - intros Hin. exists (Some g). split; [exact Hin|].
    cbn. apply String.eqb_refl.
Qed.

Lemma truthy_nonempty (s : string) :
  s <> "" -> JS.truthy_string (Some s) = true.
Proof.
  intros H. unfold JS.truthy_string.
  apply String.eqb_neq in H. now rewrite H.
Qed.

(** With a genre alone the filter object has the one key [genres]. *)
Lemma allBooks_genre_eq (g : string) (w : World) :
  g <> "" ->
  Query_allBooks {| AllBooksArgs.author := None;
                    AllBooksArgs.genre := Some g |} w
  = (inr (map (populated (db w))
            (filter (fun b => Book.genres_in g b)
               (Book_collection (db w)))), w).
Proof.
  intros Hg. unfold Query_allBooks.
  cbn [AllBooksArgs.author AllBooksArgs.genre].
  rewrite (truthy_nonempty g Hg). cbn [JS.truthy_string].
  unfold Book_find. run_resolver. rewrite populate_all_eq.
  reflexivity.
Qed.

(** C4 (amended): for every non-empty genre string [g],
    [allBooks(genre: g)] returns exactly the stored Books whose genre
    list contains [g]: every returned Book contains [g] and every
    stored Book containing [g] is returned. *)
Theorem allBooks_genre_nonempty (g : string) (w : World) :
  g <> "" -> allBooks_genre_exact g w.
Proof.
  intros Hg. unfold allBooks_genre_exact.
  eexists. split; [apply (allBooks_genre_eq g w Hg)|].
  rewrite map_doc_populated. intros b. rewrite filter_In, genres_in_iff. reflexivity.
Qed.

(** C10 (amended): when the author argument is a non-empty string that
    is the name of no stored Author, [allBooks] fails with the type
    error of reading [_id] of null, whatever the genre argument, and
    returns no list. *)
Theorem allBooks_unknown_author_nonempty
  (n : string) (genre : option string) (w : World) :
  n <> "" ->
  (forall a, In a (Author_collection (db w)) -> Author.name a <> n) ->
  allBooks_unknown_author_fails n genre w.
Proof.
  intros Hn Hno. unfold allBooks_unknown_author_fails, Query_allBooks.
  cbn [AllBooksArgs.author]. rewrite (truthy_nonempty n Hn).
  unfold Author_findOne. run_resolver.
  rewrite find_absent; [reflexivity|].
  intros a Ha. apply has_name_false. now apply Hno.
Qed.

(** *** addBook, step by step *)

(** The whole of an authenticated [addBook] in one equation: the two
    validations, then the two saves, then the publication. *)
Lemma addBook_eq (args : AddBookArgs.t) (ctx : Context.t) (w : World) :
  Context.currentUser ctx <> None ->
  let book := addBook_book args w in
  let author := addBook_author args w in
  let ids := addBook_nextObjectId args w in
  let rejected (e : Error) (d : Database) : (Error + Populated.t) * World :=
    (inl (UserInputError (message e) (Some (ArgsAddBook args))),
     {| db := d; nextObjectId := ids; pubsub := pubsub w |}) in
  addBook args ctx w
  = match first_error [Book_validateSync book;
                       Author_validateSync author] with
    | Some e => rejected e (db w)
    | None =>
        match Book_save_rejects (db w) book with
        | Some e => rejected e (db w)
        | None =>
            let d1 := insert_book (db w) book in
            match Author_save_rejects d1 author with
            | Some e => rejected e d1
            | None =>
                let d2 := save_author (addBook_isNew args w) d1 author in
                (inr (populated d2 book),
                 {| db := d2; nextObjectId := ids;
                    pubsub :=
                      map (push "BOOK_ADDED" (populated d2 book))
                        (pubsub w) |})
            end
        end
    end.
Proof.
  intros Hu. unfold Mutation_addBook.
  destruct (Context.currentUser ctx) as [u|]; [clear Hu|congruence].
  unfold addBook_book, addBook_author, addBook_nextObjectId,
    addBook_isNew, addBook_found_or_new.
  unfold new_Book, new_ObjectId, addBook_try, Author_findOne, new_Author,
    new_ObjectId, Book_save, Author_save, PubSub_publish.
  run_resolver. cbn [db nextObjectId pubsub].
  destruct (find (has_name (AddBookArgs.author args))
              (Author_collection (db w))) as [a|];
    cbn [fst snd forEach first_error Book._id Author._id Author.set_books
           Book.set_author Author.books app];
    run_resolver.
  all: destruct (Book_validateSync _); [reflexivity|].
  all: destruct (Author_validateSync _); [reflexivity|].
  all: cbn [db].
  all: destruct (Book_save_rejects _ _); [reflexivity|].
  all: cbn [db].
  all: destruct (Author_save_rejects _ _); [reflexivity|].
  all: rewrite populate_author_eq; reflexivity.
Qed.

(** C3: an authenticated [addBook] validates the Book and the Author in
    memory before it saves either.  Both results are collected; when one
    of them is an error, the first such error is thrown as an input
    error with its message and the arguments of the call, the two
    collections stay as they were and nothing is published. *)
Theorem addBook_validates_before_saving
  (args : AddBookArgs.t) (ctx : Context.t) (w : World) (e : Error) :
  Context.currentUser ctx <> None ->
  first_error [Book_validateSync (addBook_book args w);
               Author_validateSync (addBook_author args w)] = Some e ->
  exists w',
    addBook args ctx w
    = (inl (UserInputError (message e) (Some (ArgsAddBook args))), w')
    /\ db w' = db w
    /\ pubsub w' = pubsub w.
Proof.
  intros Hu He. rewrite (addBook_eq args ctx w Hu). cbv zeta.
  rewrite He. eexists. split; [reflexivity|]. split; reflexivity.
Qed.

(** *** Lookups after a save *)

Lemma find_app_new {A : Type} (p : A -> bool) (l : list A) (x : A) :
  find p l = None -> p x = true -> find p (l ++ [x]) = Some x.
Proof.
  induction l as [|y r IH]; cbn [find app]; intros Hn Hx.
  - now rewrite Hx.
  - destruct (p y); [discriminate Hn|]. now apply IH.
Qed.

Lemma has_author_id_refl (a : Author.t) :
  has_author_id (Author._id a) a = true.
Proof. unfold has_author_id. apply Nat.eqb_refl. Qed.

Lemma map_id_replace_first (a' : Author.t) (l : list Author.t) :
  map Author._id (replace_first (has_author_id (Author._id a')) a' l)
  = map Author._id l.
Proof.
  induction l as [|y r IH]; [reflexivity|]. cbn [replace_first].
  destruct (has_author_id (Author._id a') y) eqn:Hy; cbn [map].
  - unfold has_author_id in Hy. apply Nat.eqb_eq in Hy. now rewrite Hy.
  - now rewrite IH.
Qed.

(** After the update of Author [a] by [a'] (same identifier, same name)
    both lookups, by name and by identifier, answer [a']. *)
Lemma find_after_update (n : string) (a a' : Author.t)
  (l : list Author.t) :
  NoDup (map Author._id l) ->
  find (has_name n) l = Some a ->
  Author._id a' = Author._id a ->
  Author.name a' = n ->
  let l' := replace_first (has_author_id (Author._id a')) a' l in
  find (has_name n) l' = Some a'
  /\ find (has_author_id (Author._id a')) l' = Some a'.
Proof.
  intros Hnd Hf Hid Hname. cbv zeta.
  assert (Hn' : has_name n a' = true).
  { unfold has_name. now apply String.eqb_eq. }
  induction l as [|y r IH]; [discriminate Hf|].
  cbn [find] in Hf. cbn [replace_first].
  destruct (has_name n y) eqn:Hy.
  - injection Hf as ->. rewrite Hid, has_author_id_refl.
    cbn [find]. rewrite Hn'. rewrite <- Hid, has_author_id_refl.
    split; reflexivity.
  - cbn [map] in Hnd. apply NoDup_cons_iff in Hnd.
    destruct Hnd as [Hnotin Hnd].
    assert (Hne : has_author_id (Author._id a') y = false).
    { unfold has_author_id. apply Nat.eqb_neq. intros Heq.
      apply Hnotin. rewrite Heq, Hid. apply in_map.
      apply (find_some _ _ Hf). }
    rewrite Hne. cbn [find]. rewrite Hy, Hne. now apply IH.
Qed.

Lemma find_id_fresh (i : ObjectId) (n : nat) (l : list Author.t) :
  Forall (fun j => j < n) (map Author._id l) -> n <= i ->
  find (has_author_id i) l = None.
Proof.
  intros Hall Hle. apply find_absent. intros a Ha.
  rewrite Forall_forall in Hall.
  specialize (Hall _ (in_map Author._id _ _ Ha)).
  unfold has_author_id. apply Nat.eqb_neq. lia.
Qed.

Lemma filter_all {A : Type} (p : A -> bool) (l : list A) :
  (forall x, p x = true) -> filter p l = l.
Proof.
  intros Hp. induction l as [|y r IH]; [reflexivity|].
  cbn [filter]. now rewrite Hp, IH.
Qed.

(** Without arguments the filter object is empty. *)
Lemma allBooks_all_eq (w : World) :
  Query_allBooks {| AllBooksArgs.author := None;
                    AllBooksArgs.genre := None |} w
  = (inr (map (populated (db w)) (Book_collection (db w))), w).
Proof.
  unfold Query_allBooks, Book_find.
  cbn [AllBooksArgs.author AllBooksArgs.genre JS.truthy_string].
  run_resolver. rewrite populate_all_eq.
  rewrite filter_all; [reflexivity|]. intros b. reflexivity.
Qed.

Lemma addBook_author_id (args : AddBookArgs.t) (w : World) :
  Author._id (addBook_author args w)
  = Author._id (addBook_found_or_new args w).
Proof. reflexivity. Qed.

Lemma addBook_author_name (args : AddBookArgs.t) (w : World) :
  Author.name (addBook_author args w) = AddBookArgs.author args.
Proof.
  unfold addBook_author, addBook_found_or_new.
  destruct (find _ _) as [a|] eqn:Hf; [|reflexivity].
  apply find_some in Hf. destruct Hf as [_ Hn].
  unfold has_name in Hn. now apply String.eqb_eq.
Qed.

(** Once both saves of [addBook] went through, the Author it saved is
    the one found under the name of the call and under the reference of
    the new Book. *)
Lemma author_lookups_after_addBook (args : AddBookArgs.t) (w : World) :
  wf_world w ->
  let a' := addBook_author args w in
  let d2 :=
    save_author (addBook_isNew args w)
      (insert_book (db w) (addBook_book args w)) a' in
  find (has_name (AddBookArgs.author args)) (Author_collection d2)
  = Some a'
  /\ find (has_author_id (Author._id a')) (Author_collection d2)
     = Some a'.
Proof.
  intros [Hnd Hlt]. cbv zeta.
  pose proof (addBook_author_name args w) as Hname.
  unfold save_author, insert_book. cbn [Author_collection].
  unfold addBook_isNew, addBook_author, addBook_found_or_new in *.
  destruct (find (has_name (AddBookArgs.author args))
              (Author_collection (db w))) as [a|] eqn:Hf.
  - apply (find_after_update _ a); auto.
  - split.
    + apply find_app_new; [exact Hf|].
      unfold has_name. cbn. apply String.eqb_refl.
    + apply find_app_new; [|apply has_author_id_refl].
      apply (find_id_fresh _ (nextObjectId w)); [exact Hlt|].
      cbn. lia.
Qed.

(** What an [addBook] that returned has done. *)
Lemma addBook_returns
  (args : AddBookArgs.t) (ctx : Context.t) (w w' : World)
  (r : Populated.t) :
  addBook args ctx w = (inr r, w') ->
  let d2 :=
    save_author (addBook_isNew args w)
      (insert_book (db w) (addBook_book args w))
      (addBook_author args w) in
  r = populated d2 (addBook_book args w)
  /\ w' = {| db := d2;
             nextObjectId := addBook_nextObjectId args w;
             pubsub := map (push "BOOK_ADDED" r) (pubsub w) |}.
Proof.
  intros Hrun. cbv zeta.
  assert (Hu : Context.currentUser ctx <> None).
  { intros Hnone. unfold Mutation_addBook in Hrun. rewrite Hnone in Hrun.
    discriminate Hrun. }
  rewrite (addBook_eq args ctx w Hu) in Hrun. cbv zeta in Hrun.
  destruct (first_error _); [discriminate Hrun|].
  destruct (Book_save_rejects _ _); [discriminate Hrun|].
  destruct (Author_save_rejects _ _); [discriminate Hrun|].
  injection Hrun as Hr Hw'. rewrite <- Hw', <- Hr. split; reflexivity.
Qed.

Lemma populated_after_addBook (args : AddBookArgs.t) (w : World) :
  wf_world w ->
  populated
    (save_author (addBook_isNew args w)
       (insert_book (db w) (addBook_book args w))
       (addBook_author args w))
    (addBook_book args w)
  = {| Populated.doc := addBook_book args w;
       Populated.author := Some (addBook_author args w) |}.
Proof.
  intros Hwf.
  destruct (author_lookups_after_addBook args w Hwf) as [_ Hbyid].
  unfold populated. f_equal. cbn [Book.author addBook_book].
  rewrite <- addBook_author_id. exact Hbyid.
Qed.

(** C7: an [addBook] returns exactly when it has a current user, both
    validations pass and the store accepts the Book and then the Author,
    be the Author new or stored.  After an [addBook] that returned,
    [allBooks] without arguments lists the Book that was added, populated
    with the Author record as it is now stored; that record is the one
    found under the author name of the call, and its [bookCount] is one
    more than that of the Author found under the name before the call
    (one, when the call made the Author). *)
Theorem addBook_then_allBooks_and_bookCount
  (args : AddBookArgs.t) (ctx : Context.t) (w : World) :
  wf_world w ->
  let a' := addBook_author args w in
  ((exists r w', addBook args ctx w = (inr r, w'))
   <-> Context.currentUser ctx <> None
       /\ first_error [Book_validateSync (addBook_book args w);
                       Author_validateSync a'] = None
       /\ Book_save_rejects (db w) (addBook_book args w) = None
       /\ Author_save_rejects
            (insert_book (db w) (addBook_book args w)) a' = None)
  /\ (forall r w',
         addBook args ctx w = (inr r, w') ->
         r = {| Populated.doc := addBook_book args w;
                Populated.author := Some a' |}
         /\ (exists l,
                Query_allBooks {| AllBooksArgs.author := None;
                                  AllBooksArgs.genre := None |} w'
                = (inr l, w')
                /\ In r l)
         /\ Author_findOne (AddBookArgs.author args) w'
            = (inr (Some a'), w')
         /\ (forall a,
                Author_findOne (AddBookArgs.author args) w
                = (inr (Some a), w) ->
                Author_bookCount a' = S (Author_bookCount a))
         /\ (Author_findOne (AddBookArgs.author args) w = (inr None, w) ->
             Author_bookCount a' = 1)).
Proof.
  intros Hwf. cbv zeta. split.
  - split.
    + intros [r [w' Hrun]].
      assert (Hu : Context.currentUser ctx <> None).
      { intros Hnone. unfold Mutation_addBook in Hrun.
        rewrite Hnone in Hrun. discriminate Hrun. }
      rewrite (addBook_eq args ctx w Hu) in Hrun. cbv zeta in Hrun.
      destruct (first_error _); [discriminate Hrun|].
      destruct (Book_save_rejects _ _); [discriminate Hrun|].
      destruct (Author_save_rejects _ _); [discriminate Hrun|].
      repeat split. exact Hu.
    + intros [Hu [Hval [Hbook Hauthor]]].
      rewrite (addBook_eq args ctx w Hu). cbv zeta.
      rewrite Hval, Hbook, Hauthor. eexists. eexists. reflexivity.
  - intros r w' Hrun.
    destruct (author_lookups_after_addBook args w Hwf) as [Hbyname _].
    destruct (addBook_returns args ctx w w' r Hrun) as [Hr Hw'].
    rewrite (populated_after_addBook args w Hwf) in Hr.
    split; [exact Hr|]. split; [|split; [|split]].
    + rewrite allBooks_all_eq. eexists. split; [reflexivity|].
      rewrite Hw'. cbn [db]. apply in_map_iff.
      exists (addBook_book args w). split.
      * rewrite Hr. apply (populated_after_addBook args w Hwf).
      * cbn. apply in_or_app. right. now left.
    + unfold Author_findOne. run_resolver. rewrite Hw'. cbn [db].
      now rewrite Hbyname.
    + intros a Ha. unfold Author_findOne in Ha. run_resolver.
      injection Ha as Ha.
      unfold Author_bookCount, addBook_author, addBook_found_or_new.
      rewrite Ha. cbn. rewrite length_app. cbn. lia.
    + intros Ha. unfold Author_findOne in Ha. run_resolver.
      injection Ha as Ha.
      unfold Author_bookCount, addBook_author, addBook_found_or_new.
      rewrite Ha. reflexivity.
Qed.

(** *** What each call does to the world *)

Local Abbreviation createUser := (Mutation_createUser User_save_rejects).
Local Abbreviation perform_call :=
  (perform Book_validateSync Author_validateSync Book_save_rejects
     Author_save_rejects User_save_rejects JWT_SECRET jwt_sign).
Local Abbreviation run_calls :=
  (run Book_validateSync Author_validateSync Book_save_rejects
     Author_save_rejects User_save_rejects JWT_SECRET jwt_sign).

Lemma quiet_refl (w : World) : quiet w w.
Proof. repeat split. apply Nat.le_refl. Qed.

Lemma addBook_throws_quiet
  (args : AddBookArgs.t) (ctx : Context.t) (w w' : World) (e : Error) :
  addBook args ctx w = (inl e, w') -> quiet w w'.
Proof.
  intros Hrun.
  destruct (Context.currentUser ctx) as [u|] eqn:Hu.
  - assert (Hsome : Context.currentUser ctx <> None) by congruence.
    rewrite (addBook_eq args ctx w Hsome) in Hrun. cbv zeta in Hrun.
    assert (Hids : nextObjectId w <= addBook_nextObjectId args w).
    { unfold addBook_nextObjectId. destruct (addBook_isNew args w); lia. }
    destruct (first_error _);
      [injection Hrun as _ <-; repeat split; exact Hids|].
    destruct (Book_save_rejects _ _);
      [injection Hrun as _ <-; repeat split; exact Hids|].
    destruct (Author_save_rejects _ _); [|discriminate Hrun].
    injection Hrun as _ <-. repeat split. exact Hids.
  - unfold Mutation_addBook in Hrun. rewrite Hu in Hrun.
    injection Hrun as _ <-. apply quiet_refl.
Qed.

Lemma editAuthor_quiet
  (args : EditAuthorArgs.t) (ctx : Context.t) (w : World) :
  quiet w (snd (editAuthor args ctx w)).
Proof.
  unfold Mutation_editAuthor.
  destruct (Context.currentUser ctx); [|apply quiet_refl].
  unfold Author_findOne, Author_save. run_resolver.
  destruct (find _ _) as [a|]; [|apply quiet_refl].
  destruct (Author_save_rejects _ _); [apply quiet_refl|].
  cbn [snd]. repeat split; [|apply Nat.le_refl].
  unfold author_ids. cbn [db save_author Author_collection].
  apply (map_id_replace_first
           (Author.set_born a (Some (EditAuthorArgs.setBornTo args)))).
Qed.

Lemma createUser_quiet (args : CreateUserArgs.t) (w : World) :
  quiet w (snd (createUser args w)).
Proof.
  unfold Mutation_createUser, new_User, new_ObjectId, User_save.
  run_resolver. cbn [db].
  destruct (User_save_rejects _ _); cbn [snd]; repeat split;
    cbn [nextObjectId]; lia.
Qed.

Lemma login_unchanged (args : LoginArgs.t) (w : World) :
  snd (login args w) = w.
Proof.
  unfold Mutation_login, User_findOne. run_resolver.
  destruct (find _ _); [|reflexivity].
  destruct (negb _); reflexivity.
Qed.

Lemma allBooks_unchanged (args : AllBooksArgs.t) (w : World) :
  snd (Query_allBooks args w) = w.
Proof.
  unfold Query_allBooks, Author_findOne, Book_find.
  destruct (JS.truthy_string (AllBooksArgs.author args)).
  - destruct (AllBooksArgs.author args) as [n|]; run_resolver.
    + destruct (find _ _); [|reflexivity].
      rewrite populate_all_eq. reflexivity.
    + rewrite populate_all_eq. reflexivity.
  - run_resolver. rewrite populate_all_eq. reflexivity.
Qed.

(** *** Well-formed worlds are kept *)

Lemma wf_empty : wf_world empty_world.
Proof. split; constructor. Qed.

Lemma quiet_wf (w w' : World) : quiet w w' -> wf_world w -> wf_world w'.
Proof.
  intros [_ [Hids Hle]] [Hnd Hlt]. split; rewrite Hids; [exact Hnd|].
  eapply Forall_impl; [|exact Hlt]. cbn. intros i Hi. lia.
Qed.

Lemma addBook_returns_wf
  (args : AddBookArgs.t) (ctx : Context.t) (w w' : World)
  (r : Populated.t) :
  addBook args ctx w = (inr r, w') -> wf_world w -> wf_world w'.
Proof.
  intros Hrun [Hnd Hlt].
  destruct (addBook_returns args ctx w w' r Hrun) as [_ ->].
  unfold wf_world, author_ids in *.
  cbn [db nextObjectId save_author Author_collection insert_book].
  unfold addBook_nextObjectId, addBook_isNew, addBook_author,
    addBook_found_or_new.
  destruct (find _ _) as [a|].
  - rewrite (map_id_replace_first
               (Author.set_books a (Author.books a ++ [nextObjectId w]))).
    split; [exact Hnd|].
    eapply Forall_impl; [|exact Hlt]. cbn. intros i Hi. lia.
  - rewrite map_app. cbn [map Author._id Author.set_books]. split.
    + apply NoDup_app; [exact Hnd|repeat constructor; intros []|].
      intros i Hi [<-|[]]. rewrite Forall_forall in Hlt.
      specialize (Hlt _ Hi). lia.
    + apply Forall_app. split.
      * eapply Forall_impl; [|exact Hlt]. cbn. intros i Hi. lia.
      * repeat constructor.
Qed.

Lemma perform_wf (c : Call) (w : World) :
  wf_world w -> wf_world (fst (perform_call c w)).
Proof.
  intros Hwf. destruct c as [args ctx|args ctx|args|args|args| |j];
    cbn [perform].
  - destruct (addBook args ctx w) as [[e|r] w'] eqn:Hrun; cbn [fst].
    + apply (quiet_wf w); [|exact Hwf].
      apply (addBook_throws_quiet args ctx w w' e Hrun).
    + apply (addBook_returns_wf args ctx w w' r Hrun Hwf).
  - apply (quiet_wf w); [apply editAuthor_quiet|exact Hwf].
  - apply (quiet_wf w); [apply createUser_quiet|exact Hwf].
  - cbn [fst]. now rewrite login_unchanged.
  - cbn [fst]. now rewrite allBooks_unchanged.
  - exact Hwf.
  - exact Hwf.
Qed.

(** *** Delivery of announcements *)













Lemma run_wf (cs : list Call) (w : World) :
  wf_world w -> wf_world (fst (run_calls cs w)).
Proof.
  revert w. induction cs as [|c r IH]; intros w Hwf; cbn [run].
  - exact Hwf.
  - pose proof (perform_wf c w Hwf) as Hwf1.
    destruct (perform_call c w) as [w1 e1]. cbn [fst] in Hwf1.
    specialize (IH w1 Hwf1).
    destruct (run_calls r w1) as [w2 e2]. exact IH.
Qed.

(** Every world reached from the empty one by calls is well formed. *)
Lemma reachable_wf (cs : list Call) :
  wf_world (fst (run_calls cs empty_world)).
Proof. apply run_wf. apply wf_empty. Qed.


(** *** editAuthor *)

Lemma length_replace_first {A : Type} (p : A -> bool) (x : A)
  (l : list A) :
  length (replace_first p x l) = length l.
Proof.
  induction l as [|y r IH]; [reflexivity|]. cbn [replace_first].
  destruct (p y); cbn [length]; [reflexivity|now rewrite IH].
Qed.

Lemma has_name_set_born (n : string) (a : Author.t) (b : option Z) :
  has_name n a = true -> Author.name (Author.set_born a b) = n.
Proof. unfold has_name. intros H. now apply String.eqb_eq. Qed.

(** An [editAuthor] that throws has written nothing, and throws one of
    three errors: the authentication error without a current user, the
    input error "Author doesn't exist" when the lookup by name finds no
    Author, the input error with the message of the store and the
    arguments of the call when the save is refused. *)
Theorem editAuthor_failure_writes_nothing
  (args : EditAuthorArgs.t) (ctx : Context.t) (w w' : World) (e : Error) :
  editAuthor args ctx w = (inl e, w') ->
  w' = w
  /\ ((Context.currentUser ctx = None
       /\ e = AuthenticationError "not authenticated")
      \/ (Context.currentUser ctx <> None
          /\ Author_findOne (EditAuthorArgs.name args) w = (inr None, w)
          /\ e = UserInputError "Author doesn't exist" None)
      \/ (exists a e0,
             Context.currentUser ctx <> None
             /\ Author_findOne (EditAuthorArgs.name args) w
                = (inr (Some a), w)
             /\ Author_save_rejects (db w)
                  (Author.set_born a
                     (Some (EditAuthorArgs.setBornTo args))) = Some e0
             /\ e = UserInputError (message e0)
                      (Some (ArgsEditAuthor args)))).
Proof.
  unfold Mutation_editAuthor, Author_findOne, Author_save. run_resolver.
  destruct (Context.currentUser ctx) as [u|].
  - destruct (find _ _) as [a|].
    + destruct (Author_save_rejects _ _) as [e0|] eqn:Hsave;
        [|discriminate].
      intros H. injection H as <- <-. split; [reflexivity|].
      right. right. exists a, e0. repeat split; [discriminate|exact Hsave].
    + intros H. injection H as <- <-. split; [reflexivity|].
      right. left. repeat split. discriminate.
  - intros H. injection H as <- <-. split; [reflexivity|].
    left. split; reflexivity.
Qed.

(** An authenticated [editAuthor] on the name of a stored Author, whose
    save the store accepts, returns that Author with the birth year of
    the call and stores it in place: the lookup by name and [allAuthors]
    now give the edited record, the number of Authors, their identifiers
    and the edited Author's [bookCount] are as before, and neither Books,
    Users nor subscriptions are touched. *)
Theorem editAuthor_updates_in_place
  (args : EditAuthorArgs.t) (ctx : Context.t) (w : World) (a : Author.t) :
  wf_world w ->
  Context.currentUser ctx <> None ->
  Author_findOne (EditAuthorArgs.name args) w = (inr (Some a), w) ->
  Author_save_rejects (db w)
    (Author.set_born a (Some (EditAuthorArgs.setBornTo args))) = None ->
  let a' := Author.set_born a (Some (EditAuthorArgs.setBornTo args)) in
  exists w',
    editAuthor args ctx w = (inr a', w')
    /\ Author_findOne (EditAuthorArgs.name args) w' = (inr (Some a'), w')
    /\ (exists l, Query_allAuthors w' = (inr l, w')
                  /\ In a' l
                  /\ length l = length (Author_collection (db w)))
    /\ Author_bookCount a' = Author_bookCount a
    /\ author_ids w' = author_ids w
    /\ Book_collection (db w') = Book_collection (db w)
    /\ User_collection (db w') = User_collection (db w)
    /\ pubsub w' = pubsub w
    /\ nextObjectId w' = nextObjectId w.
Proof.
  intros [Hnd _] Hu Hfind Hsave. cbv zeta.
  unfold Author_findOne in Hfind. run_resolver. injection Hfind as Hfind.
  pose proof (find_some _ _ Hfind) as [_ Hname].
  destruct (find_after_update (EditAuthorArgs.name args) a
              (Author.set_born a (Some (EditAuthorArgs.setBornTo args)))
              (Author_collection (db w)) Hnd Hfind eq_refl
              (has_name_set_born _ _ _ Hname)) as [Hbyname _].
  cbv zeta in Hbyname.
  eexists. split; [|split; [|split; [|split; [|split]]]].
  - unfold Mutation_editAuthor, Author_findOne, Author_save.
    destruct (Context.currentUser ctx); [|congruence].
    run_resolver. rewrite Hfind, Hsave. reflexivity.
  - unfold Author_findOne. run_resolver. cbn [db save_author
      Author_collection]. now rewrite Hbyname.
  - eexists. split; [reflexivity|]. cbn [db save_author Author_collection].
    split; [apply (find_some _ _ Hbyname)|apply length_replace_first].
  - reflexivity.
  - unfold author_ids. cbn [db save_author Author_collection].
    apply (map_id_replace_first
             (Author.set_born a (Some (EditAuthorArgs.setBornTo args)))).
  - repeat split.
Qed.

(** *** addBook: what a failure leaves behind *)

(** An [addBook] that throws has published nothing and has written no
    Author and no User; the Book collection is as before or has the new
    Book at its end.  The error is the authentication error or an input
    error carrying the arguments of the call. *)
Theorem addBook_failure_footprint
  (args : AddBookArgs.t) (ctx : Context.t) (w w' : World) (e : Error) :
  addBook args ctx w = (inl e, w') ->
  pubsub w' = pubsub w
  /\ Author_collection (db w') = Author_collection (db w)
  /\ User_collection (db w') = User_collection (db w)
  /\ (Book_collection (db w') = Book_collection (db w)
      \/ Book_collection (db w')
         = (Book_collection (db w) ++ [addBook_book args w])%list)
  /\ (e = AuthenticationError "not authenticated"
      \/ exists m, e = UserInputError m (Some (ArgsAddBook args))).
Proof.
  intros Hrun.
  destruct (Context.currentUser ctx) as [u|] eqn:Hu.
  - assert (Hsome : Context.currentUser ctx <> None) by congruence.
    rewrite (addBook_eq args ctx w Hsome) in Hrun. cbv zeta in Hrun.
    destruct (first_error _) as [e1|].
    { injection Hrun as <- <-. cbn [db pubsub].
      repeat split; [now left|right; eexists; reflexivity]. }
    destruct (Book_save_rejects _ _) as [e2|].
    { injection Hrun as <- <-. cbn [db pubsub].
      repeat split; [now left|right; eexists; reflexivity]. }
    destruct (Author_save_rejects _ _) as [e3|]; [|discriminate Hrun].
    injection Hrun as <- <-. cbn [db pubsub].
    repeat split; [now right|right; eexists; reflexivity].
  - unfold Mutation_addBook in Hrun. rewrite Hu in Hrun.
    injection Hrun as <- <-. repeat split; now left.
Qed.

(** When both validations pass and the store refuses the Book, [addBook]
    throws the input error with the message of the store and the
    arguments; the database is as before and nothing is published. *)
Theorem addBook_book_save_refused
  (args : AddBookArgs.t) (ctx : Context.t) (w : World) (e : Error) :
  Context.currentUser ctx <> None ->
  first_error [Book_validateSync (addBook_book args w);
               Author_validateSync (addBook_author args w)] = None ->
  Book_save_rejects (db w) (addBook_book args w) = Some e ->
  exists w',
    addBook args ctx w
    = (inl (UserInputError (message e) (Some (ArgsAddBook args))), w')
    /\ db w' = db w
    /\ pubsub w' = pubsub w.
Proof.
  intros Hu Hval Hsave. rewrite (addBook_eq args ctx w Hu). cbv zeta.
  rewrite Hval, Hsave. eexists. repeat split.
Qed.

(** The two saves of [addBook] are not atomic.  When the Book was saved
    and the store then refuses the Author, [addBook] throws the input
    error of that refusal and publishes nothing, yet the Book stays in
    its collection while the Authors are as before.  If the call was to
    make the Author, [allBooks] now lists the Book with a null author. *)
Theorem addBook_keeps_book_when_author_save_fails
  (args : AddBookArgs.t) (ctx : Context.t) (w : World) (e : Error) :
  Context.currentUser ctx <> None ->
  first_error [Book_validateSync (addBook_book args w);
               Author_validateSync (addBook_author args w)] = None ->
  Book_save_rejects (db w) (addBook_book args w) = None ->
  Author_save_rejects (insert_book (db w) (addBook_book args w))
    (addBook_author args w) = Some e ->
  exists w',
    addBook args ctx w
    = (inl (UserInputError (message e) (Some (ArgsAddBook args))), w')
    /\ Book_collection (db w')
       = (Book_collection (db w) ++ [addBook_book args w])%list
    /\ Author_collection (db w') = Author_collection (db w)
    /\ pubsub w' = pubsub w
    /\ (wf_world w ->
        Author_findOne (AddBookArgs.author args) w = (inr None, w) ->
        exists l,
          Query_allBooks {| AllBooksArgs.author := None;
                            AllBooksArgs.genre := None |} w' = (inr l, w')
          /\ In {| Populated.doc := addBook_book args w;
                   Populated.author := None |} l).
Proof.
  intros Hu Hval Hbook Hauthor. rewrite (addBook_eq args ctx w Hu).
  cbv zeta. rewrite Hval, Hbook, Hauthor.
  eexists. split; [reflexivity|]. cbn [db pubsub insert_book
    Book_collection Author_collection].
  repeat split. intros [_ Hlt] Hnone.
  unfold Author_findOne in Hnone. run_resolver. injection Hnone as Hnone.
  rewrite allBooks_all_eq. eexists. split; [reflexivity|].
  cbn [db Book_collection]. apply in_map_iff.
  exists (addBook_book args w). split.
  - unfold populated. f_equal. cbn [Book.author addBook_book
      Author_collection].
    unfold addBook_found_or_new. rewrite Hnone. cbn [Author._id].
    apply (find_id_fresh _ (nextObjectId w)); [exact Hlt|lia].
  - apply in_or_app. right. now left.
Qed.

(** *** addBook: what a success has stored *)

(** After an [addBook] that returned, the new Book is the last of its
    collection, it refers to the saved Author, and the saved Author lists
    it: the two ends of the link were written together.  An Author found
    under the name keeps its identifier and birth year and no Author is
    added; otherwise exactly one Author is added, with a null birth year
    and the new Book as its only book. *)
Theorem addBook_links_book_and_author
  (args : AddBookArgs.t) (ctx : Context.t) (w w' : World)
  (r : Populated.t) :
  wf_world w ->
  addBook args ctx w = (inr r, w') ->
  let b := addBook_book args w in
  let a' := addBook_author args w in
  Book_collection (db w') = (Book_collection (db w) ++ [b])%list
  /\ User_collection (db w') = User_collection (db w)
  /\ In a' (Author_collection (db w'))
  /\ Book.author b = Some (Author._id a')
  /\ In (Book._id b) (Author.books a')
  /\ (forall a,
         Author_findOne (AddBookArgs.author args) w = (inr (Some a), w) ->
         author_ids w' = author_ids w
         /\ Author._id a' = Author._id a
         /\ Author.born a' = Author.born a)
  /\ (Author_findOne (AddBookArgs.author args) w = (inr None, w) ->
      Author_collection (db w') = (Author_collection (db w) ++ [a'])%list
      /\ Author.born a' = None
      /\ Author.books a' = [Book._id b]).
Proof.
  intros Hwf Hrun. cbv zeta.
  destruct (author_lookups_after_addBook args w Hwf) as [Hbyname _].
  destruct (addBook_returns args ctx w w' r Hrun) as [_ Hw'].
  rewrite Hw'. cbn [db Book_collection User_collection Author_collection
    save_author insert_book].
  split; [reflexivity|]. split; [reflexivity|].
  split; [apply (find_some _ _ Hbyname)|].
  split; [reflexivity|].
  split; [cbn; apply in_or_app; right; now left|].
  split.
  - intros a Ha. unfold Author_findOne in Ha. run_resolver.
    injection Ha as Ha. unfold author_ids.
    cbn [db Author_collection].
    unfold addBook_isNew, addBook_author, addBook_found_or_new.
    rewrite Ha. split; [|split; reflexivity].
    apply (map_id_replace_first
             (Author.set_books a (Author.books a ++ [nextObjectId w]))).
  - intros Ha. unfold Author_findOne in Ha. run_resolver.
    injection Ha as Ha.
    unfold addBook_isNew, addBook_author, addBook_found_or_new.
    rewrite Ha. repeat split.
Qed.

(** *** allBooks with its filters *)

Lemma genre_filter_iff (genre : option string) (b : Book.t) :
  match (if JS.truthy_string genre then genre else None) with
  | Some g => Book.genres_in g b
  | None => true
  end = true
  <-> genre_lets_through genre b.
Proof.
  unfold genre_lets_through, JS.truthy_string.
  destruct genre as [g|]; [|split; [intros _; exact I|reflexivity]].
  destruct (String.eqb_spec g "") as [->|Hne]; cbn [negb].
  - split; [now left|reflexivity].
  - rewrite genres_in_iff. split; [now right|].
    intros [He|Hin]; [contradiction|exact Hin].
Qed.

Lemma author_is_iff (i : ObjectId) (b : Book.t) :
  Book.author_is i b = true <-> Book.author b = Some i.
Proof.
  unfold Book.author_is. destruct (Book.author b) as [j|].
  - rewrite Nat.eqb_eq. split; congruence.
  - split; discriminate.
Qed.

(** The whole of [allBooks] when the lookup of the author succeeds. *)
Lemma allBooks_by_author_eq (n : string) (genre : option string)
  (w : World) (a : Author.t) :
  n <> "" ->
  find (has_name n) (Author_collection (db w)) = Some a ->
  Query_allBooks {| AllBooksArgs.author := Some n;
                    AllBooksArgs.genre := genre |} w
  = (inr (map (populated (db w))
            (filter
               (Book.matches
                  {| Book.f_author := Some (Author._id a);
                     Book.f_genres_in :=
                       if JS.truthy_string genre then genre else None |})
               (Book_collection (db w)))), w).
Proof.
  intros Hn Hf. unfold Query_allBooks, Author_findOne, Book_find.
  cbn [AllBooksArgs.author AllBooksArgs.genre].
  rewrite (truthy_nonempty n Hn). run_resolver. rewrite Hf.
  rewrite populate_all_eq. reflexivity.
Qed.

(** The whole of [allBooks] when the author argument is absent or empty. *)
Lemma allBooks_no_author_eq (author genre : option string) (w : World) :
  JS.truthy_string author = false ->
  Query_allBooks {| AllBooksArgs.author := author;
                    AllBooksArgs.genre := genre |} w
  = (inr (map (populated (db w))
            (filter
               (Book.matches
                  {| Book.f_author := None;
                     Book.f_genres_in :=
                       if JS.truthy_string genre then genre else None |})
               (Book_collection (db w)))), w).
Proof.
  intros Ha. unfold Query_allBooks, Book_find.
  cbn [AllBooksArgs.author AllBooksArgs.genre]. rewrite Ha.
  run_resolver. rewrite populate_all_eq. reflexivity.
Qed.

(** [allBooks(author: n, genre)] with a non-empty name of a stored Author
    returns exactly the stored Books that refer to the first Author of
    that name and that the genre argument lets through; each comes
    populated from the store. *)
Theorem allBooks_by_author
  (n : string) (genre : option string) (w : World) (a : Author.t) :
  n <> "" ->
  Author_findOne n w = (inr (Some a), w) ->
  exists l,
    Query_allBooks {| AllBooksArgs.author := Some n;
                      AllBooksArgs.genre := genre |} w = (inr l, w)
    /\ (forall b,
           In b (map Populated.doc l)
           <-> In b (Book_collection (db w))
               /\ Book.author b = Some (Author._id a)
               /\ genre_lets_through genre b)
    /\ (forall p, In p l -> p = populated (db w) (Populated.doc p)).
Proof.
  intros Hn Hf. unfold Author_findOne in Hf. run_resolver.
  injection Hf as Hf.
  eexists. split; [apply (allBooks_by_author_eq n genre w a Hn Hf)|].
  split.
  - intros b. rewrite map_doc_populated, filter_In. unfold Book.matches.
    cbn [Book.f_author Book.f_genres_in].
    rewrite andb_true_iff, author_is_iff, genre_filter_iff. reflexivity.
  - intros p Hp. apply in_map_iff in Hp. destruct Hp as [b [<- _]].
    reflexivity.
Qed.

(** [allBooks] never writes, whatever its arguments and its outcome; a
    list it returns holds only stored Books that the genre argument lets
    through, each populated from the store as it is, and the only error
    it throws is the type error of the missing Author. *)
Theorem allBooks_reads_only (args : AllBooksArgs.t) (w : World) :
  snd (Query_allBooks args w) = w
  /\ (forall l,
         fst (Query_allBooks args w) = inr l ->
         forall p,
           In p l ->
           In (Populated.doc p) (Book_collection (db w))
           /\ genre_lets_through (AllBooksArgs.genre args) (Populated.doc p)
           /\ p = populated (db w) (Populated.doc p))
  /\ (forall e,
         fst (Query_allBooks args w) = inl e ->
         e = TypeError "Cannot read property '_id' of null"
         /\ exists n,
              AllBooksArgs.author args = Some n /\ n <> ""
              /\ Author_findOne n w = (inr None, w)).
Proof.
  split; [apply allBooks_unchanged|].
  destruct args as [author genre]. cbn [AllBooksArgs.genre
    AllBooksArgs.author].
  assert (Hfilter : forall fa l p,
    l = map (populated (db w))
          (filter
             (Book.matches
                {| Book.f_author := fa;
                   Book.f_genres_in :=
                     if JS.truthy_string genre then genre else None |})
             (Book_collection (db w))) ->
    In p l ->
    In (Populated.doc p) (Book_collection (db w))
    /\ genre_lets_through genre (Populated.doc p)
    /\ p = populated (db w) (Populated.doc p)).
  { intros fa l p -> Hp. apply in_map_iff in Hp.
    destruct Hp as [b [<- Hb]]. apply filter_In in Hb.
    destruct Hb as [Hin Hm]. unfold Book.matches in Hm.
    cbn [Book.f_author Book.f_genres_in] in Hm.
    apply andb_true_iff in Hm. destruct Hm as [_ Hg].
    apply genre_filter_iff in Hg. cbn [populated Populated.doc].
    repeat split; assumption. }
  destruct (JS.truthy_string author) eqn:Ht.
  - destruct author as [n|]; [|discriminate Ht].
    assert (Hn : n <> "").
    { intros ->. discriminate Ht. }
    destruct (find (has_name n) (Author_collection (db w))) as [a|] eqn:Hf.
    + rewrite (allBooks_by_author_eq n genre w a Hn Hf). cbn [fst].
      split; [|discriminate].
      intros l Hl p Hp. injection Hl as Hl.
      apply (Hfilter (Some (Author._id a)) l p); [now symmetry|exact Hp].
    + unfold Query_allBooks, Author_findOne.
      cbn [AllBooksArgs.author]. rewrite Ht. run_resolver. rewrite Hf.
      cbn [fst]. split; [discriminate|].
      intros e He. injection He as <-. split; [reflexivity|].
      exists n. repeat split; [exact Hn|]. now rewrite Hf.
  - rewrite (allBooks_no_author_eq author genre w Ht). cbn [fst].
    split; [|discriminate].
    intros l Hl p Hp. injection Hl as Hl.
    apply (Hfilter None l p); [now symmetry|exact Hp].
Qed.

(** *** addBook, then the filters of allBooks *)

(** After an [addBook] that returned, with a non-empty author name,
    [allBooks] filtered by that name lists the Book that was added, and
    every Book it lists is populated with the Author as saved by the
    call. *)
Theorem addBook_then_allBooks_by_author
  (args : AddBookArgs.t) (ctx : Context.t) (w w' : World)
  (r : Populated.t) :
  wf_world w ->
  AddBookArgs.author args <> "" ->
  addBook args ctx w = (inr r, w') ->
  exists l,
    Query_allBooks {| AllBooksArgs.author := Some (AddBookArgs.author args);
                      AllBooksArgs.genre := None |} w' = (inr l, w')
    /\ In r l
    /\ (forall p, In p l ->
                  Populated.author p = Some (addBook_author args w)).
Proof.
  intros Hwf Hn Hrun.
  destruct (author_lookups_after_addBook args w Hwf) as [Hbyname Hbyid].
  destruct (addBook_returns args ctx w w' r Hrun) as [Hr Hw'].
  cbv zeta in Hbyname, Hbyid.
  assert (Hname' : find (has_name (AddBookArgs.author args))
                     (Author_collection (db w'))
                   = Some (addBook_author args w)).
  { rewrite Hw'. exact Hbyname. }
  eexists. split;
    [apply (allBooks_by_author_eq _ None w' _ Hn Hname')|].
  split.
  - apply in_map_iff. exists (addBook_book args w). split.
    + rewrite Hr, Hw'. reflexivity.
    + apply filter_In. split.
      * rewrite Hw'. cbn. apply in_or_app. right. now left.
      * unfold Book.matches. cbn [Book.f_author Book.f_genres_in
          JS.truthy_string]. rewrite andb_true_r.
        apply author_is_iff. reflexivity.
  - intros p Hp. apply in_map_iff in Hp. destruct Hp as [b [<- Hb]].
    apply filter_In in Hb. destruct Hb as [_ Hm].
    unfold Book.matches in Hm. cbn [Book.f_author] in Hm.
    apply andb_true_iff in Hm. destruct Hm as [Hm _].
    apply author_is_iff in Hm. unfold populated. cbn [Populated.author].
    rewrite Hm, Hw'. exact Hbyid.
Qed.

(** After an [addBook] that returned, [allBooks] filtered by a non-empty
    genre lists the Book that was added exactly when that genre is among
    the genres of the call. *)
Theorem addBook_then_allBooks_by_genre
  (args : AddBookArgs.t) (ctx : Context.t) (w w' : World)
  (r : Populated.t) (g : string) :
  g <> "" ->
  addBook args ctx w = (inr r, w') ->
  exists l,
    Query_allBooks {| AllBooksArgs.author := None;
                      AllBooksArgs.genre := Some g |} w' = (inr l, w')
    /\ (In r l <-> In (Some g) (AddBookArgs.genres args)).
Proof.
  intros Hg Hrun.
  destruct (addBook_returns args ctx w w' r Hrun) as [Hr Hw'].
  eexists. split; [apply (allBooks_genre_eq g w' Hg)|].
  rewrite in_map_iff. split.
  - intros [b [Hb Hin]]. apply filter_In in Hin. destruct Hin as [_ Hm].
    apply genres_in_iff in Hm.
    assert (Hdoc : b = addBook_book args w).
    { rewrite Hr in Hb. apply (f_equal Populated.doc) in Hb. exact Hb. }
    now rewrite Hdoc in Hm.
  - intros Hin. exists (addBook_book args w). split.
    + rewrite Hr, Hw'. reflexivity.
    + apply filter_In. split.
      * rewrite Hw'. cbn. apply in_or_app. right. now left.
      * apply genres_in_iff. exact Hin.
Qed.

(** *** createUser *)

(** When the store refuses the new User, [createUser] throws the input
    error with the message of the store and the arguments of the call;
    no collection changes and nothing is published. *)
Theorem createUser_refused
  (args : CreateUserArgs.t) (w : World) (e : Error) :
  User_save_rejects (db w)
    {| User._id := nextObjectId w;
       User.username := CreateUserArgs.username args;
       User.favoriteGenre := CreateUserArgs.favoriteGenre args |} = Some e ->
  exists w',
    createUser args w
    = (inl (UserInputError (message e) (Some (ArgsCreateUser args))), w')
    /\ db w' = db w
    /\ pubsub w' = pubsub w.
Proof.
  intros Hsave. unfold Mutation_createUser, new_User, new_ObjectId,
    User_save. run_resolver. cbn [db]. rewrite Hsave.
  eexists. repeat split.
Qed.

(** A [createUser] that returned, for a user name that no stored User
    had, has appended the User with the arguments of the call and touched
    neither Books nor Authors; a [login] with that name and the literal
    password then returns the token signed from that name and the
    identifier of the new User. *)
Theorem createUser_then_login
  (args : CreateUserArgs.t) (w w' : World) (u : User.t) :
  createUser args w = (inr u, w') ->
  (forall v, In v (User_collection (db w)) ->
             User.username v <> CreateUserArgs.username args) ->
  User.username u = CreateUserArgs.username args
  /\ User.favoriteGenre u = CreateUserArgs.favoriteGenre args
  /\ User_collection (db w') = (User_collection (db w) ++ [u])%list
  /\ Book_collection (db w') = Book_collection (db w)
  /\ Author_collection (db w') = Author_collection (db w)
  /\ login {| LoginArgs.username := CreateUserArgs.username args;
              LoginArgs.password := "secred" |} w'
     = (inr {| Token.value :=
                 jwt_sign
                   {| UserForToken.username := CreateUserArgs.username args;
                      UserForToken.id := User._id u |}
                   JWT_SECRET |}, w').
Proof.
  intros Hrun Hfree.
  unfold Mutation_createUser, new_User, new_ObjectId, User_save in Hrun.
  repeat autounfold with resolvers in Hrun. cbn [db] in Hrun.
  destruct (User_save_rejects _ _); [discriminate Hrun|].
  injection Hrun as <- <-.
  cbn [User.username User.favoriteGenre db insert_user User_collection
         Book_collection Author_collection].
  repeat split.
  unfold Mutation_login, User_findOne. run_resolver.
  cbn [db insert_user User_collection LoginArgs.username
         LoginArgs.password].
  rewrite find_app_new.
  - reflexivity.
  - apply find_absent. intros v Hv. apply has_username_false.
    now apply Hfree.
  - unfold has_username. apply String.eqb_refl.
Qed.

(** *** The bearer scheme *)

Lemma toLowerCase_app (p t : string) :
  JS.toLowerCase (p ++ t) = JS.toLowerCase p ++ JS.toLowerCase t.
Proof.
  induction p as [|c r IH]; [reflexivity|].
  cbn [JS.toLowerCase String.append]. now rewrite IH.
Qed.

Lemma toLowerCase_length (p : string) :
  String.length (JS.toLowerCase p) = String.length p.
Proof.
  induction p as [|c r IH]; [reflexivity|].
  cbn [JS.toLowerCase String.length]. now rewrite IH.
Qed.

Lemma prefix_append (p t : string) : String.prefix p (p ++ t) = true.
Proof.
  induction p as [|c r IH]; [destruct t; reflexivity|].
  cbn [String.prefix String.append].
  destruct (ascii_dec c c) as [_|Hne]; [exact IH|now elim Hne].
Qed.

Lemma substring_from_append (p t : string) :
  JS.substring_from (String.length p) (p ++ t) = t.
Proof.
  induction p as [|c r IH]; [reflexivity|exact IH].
Qed.

(** The context of a request whose header is a scheme lowercasing to
    "bearer " followed by a token. *)
Lemma context_bearer_eq (p t : string) (w : World) :
  JS.toLowerCase p = "bearer " ->
  request_context
    (Some {| Request.authorization := Some (p ++ t) |}) w
  = (inr (Some {| Context.currentUser :=
                    match jwt_verify t JWT_SECRET with
                    | inl _ => None
                    | inr tok =>
                        find (has_user_id (UserForToken.id tok))
                          (User_collection (db w))
                    end |}), w).
Proof.
  intros Hp.
  assert (Hlen : String.length p = 7).
  { rewrite <- toLowerCase_length, Hp. reflexivity. }
  unfold context. cbn [Request.authorization].
  assert (Ht : JS.truthy_string (Some (p ++ t)) = true).
  { destruct p; [discriminate Hlen|reflexivity]. }
  rewrite Ht. unfold JS.startsWith.
  rewrite toLowerCase_app, Hp, prefix_append. cbn [andb].
  rewrite <- Hlen at 1. rewrite substring_from_append.
  unfold User_findById. run_resolver.
  destruct (jwt_verify t JWT_SECRET); reflexivity.
Qed.

Lemma find_user_by_id (u : User.t) (l : list User.t) :
  NoDup (map User._id l) -> In u l ->
  find (has_user_id (User._id u)) l = Some u.
Proof.
  induction l as [|y r IH]; intros Hnd Hin; [destruct Hin|].
  cbn [map] in Hnd. apply NoDup_cons_iff in Hnd.
  destruct Hnd as [Hnotin Hnd]. cbn [find].
  destruct Hin as [->|Hin].
  - unfold has_user_id. now rewrite Nat.eqb_refl.
  - rewrite has_user_id_false; [now apply IH|].
    intros Heq. apply Hnotin. rewrite Heq. now apply in_map.
Qed.

(** The scheme of the header is matched without regard to case, and the
    token is what follows its seven characters.  When the library accepts
    the token and a User with the identifier of its payload is stored, the
    context carries the first such User as current user; [me] then returns
    that User, and nothing is written. *)
Theorem context_resolves_current_user
  (p t : string) (w : World) (tok : UserForToken.t) (u : User.t) :
  JS.toLowerCase p = "bearer " ->
  jwt_verify t JWT_SECRET = inr tok ->
  User_findById (UserForToken.id tok) w = (inr (Some u), w) ->
  let ctx := {| Context.currentUser := Some u |} in
  request_context (Some {| Request.authorization := Some (p ++ t) |}) w
  = (inr (Some ctx), w)
  /\ Query_me ctx w = (inr u, w)
  /\ User._id u = UserForToken.id tok
  /\ In u (User_collection (db w)).
Proof.
  intros Hp Hv Hu. cbv zeta. unfold User_findById in Hu. run_resolver.
  injection Hu as Hu. rewrite (context_bearer_eq p t w Hp), Hv, Hu.
  destruct (find_some _ _ Hu) as [Hin Hid].
  unfold has_user_id in Hid. apply Nat.eqb_eq in Hid.
  repeat split; assumption.
Qed.

(** The context of a request is undefined exactly when the request has no
    authorization header or the header does not start, case aside, with
    "bearer "; in every other case it is an object. *)
Theorem context_undefined_iff (req : option Request.t) (w : World) :
  request_context req w = (inr None, w)
  <-> (forall a,
          req = Some {| Request.authorization := Some a |} ->
          JS.startsWith (JS.toLowerCase a) "bearer " = false).
Proof.
  unfold context. destruct req as [[[a|]]|]; cbn [Request.authorization].
  - destruct (JS.startsWith (JS.toLowerCase a) "bearer ") eqn:Hb.
    + assert (Ht : JS.truthy_string (Some a) = true).
      { destruct a; [discriminate Hb|reflexivity]. }
      rewrite Ht. cbn [andb]. unfold User_findById. run_resolver. split.
      * destruct (jwt_verify _ _); cbn; intros H; discriminate H.
      * intros H. specialize (H a eq_refl). congruence.
    + rewrite andb_false_r. split; [|reflexivity].
      intros _ a' Ha'. injection Ha' as <-. exact Hb.
  - split; [|reflexivity]. intros _ a Ha. discriminate Ha.
  - split; [|reflexivity]. intros _ a Ha. discriminate Ha.
Qed.

(** A token returned by [login] authenticates the next request: when the
    identifiers of stored Users are distinct and the token library
    verifies what it signed for the stored Users, the request carrying
    "bearer " (in any case) and that token gets, as current user, a stored
    User with the user name of the login, and [me] returns it. *)
Theorem login_then_request_is_authenticated
  (args : LoginArgs.t) (w w' : World) (token : Token.t) (p : string) :
  NoDup (map User._id (User_collection (db w))) ->
  (forall u, In u (User_collection (db w)) ->
             jwt_verify
               (jwt_sign {| UserForToken.username := User.username u;
                            UserForToken.id := User._id u |} JWT_SECRET)
               JWT_SECRET
             = inr {| UserForToken.username := User.username u;
                      UserForToken.id := User._id u |}) ->
  JS.toLowerCase p = "bearer " ->
  login args w = (inr token, w') ->
  exists u,
    In u (User_collection (db w))
    /\ User.username u = LoginArgs.username args
    /\ w' = w
    /\ request_context
         (Some {| Request.authorization := Some (p ++ Token.value token) |})
         w'
       = (inr (Some {| Context.currentUser := Some u |}), w')
    /\ Query_me {| Context.currentUser := Some u |} w' = (inr u, w').
Proof.
  intros Hnd Hround Hp Hlogin.
  unfold Mutation_login, User_findOne in Hlogin.
  repeat autounfold with resolvers in Hlogin.
  destruct (find (has_username (LoginArgs.username args))
              (User_collection (db w))) as [u|] eqn:Hf;
    [|discriminate Hlogin].
  destruct (negb _); [discriminate Hlogin|].
  injection Hlogin as <- <-.
  destruct (find_some _ _ Hf) as [Hin Hname].
  unfold has_username in Hname. apply String.eqb_eq in Hname.
  exists u. split; [exact Hin|]. split; [exact Hname|].
  split; [reflexivity|]. split; [|reflexivity].
  rewrite (context_bearer_eq p _ w Hp). cbn [Token.value].
  rewrite (Hround u Hin). cbn [UserForToken.id].
  now rewrite (find_user_by_id u _ Hnd Hin).
Qed.

(** *** Nothing stored is removed *)

Lemma author_kept_refl (a : Author.t) : author_kept a a.
Proof.
  repeat split. exists []. now rewrite app_nil_r.
Qed.

Lemma author_kept_trans (a b c : Author.t) :
  author_kept a b -> author_kept b c -> author_kept a c.
Proof.
  intros [Hi1 [Hn1 [bs1 Hb1]]] [Hi2 [Hn2 [bs2 Hb2]]].
  split; [congruence|]. split; [congruence|].
  exists (bs1 ++ bs2)%list. now rewrite Hb2, Hb1, app_assoc.
Qed.

Lemma authors_kept_refl (l : list Author.t) : Forall2 author_kept l l.
Proof.
  induction l; constructor; [apply author_kept_refl|assumption].
Qed.

Lemma authors_kept_trans (l1 l2 l3 : list Author.t) :
  Forall2 author_kept l1 l2 -> Forall2 author_kept l2 l3 ->
  Forall2 author_kept l1 l3.
Proof.
  intros H12. revert l3. induction H12 as [|a b r1 r2 Hab _ IH];
    intros l3 H23; inversion H23; subst; constructor.
  - now apply (author_kept_trans a b).
  - now apply IH.
Qed.

Lemma grows_refl (w : World) : grows w w.
Proof.
  split; [exists []; now rewrite app_nil_r|].
  split; [exists []; now rewrite app_nil_r|].
  exists (Author_collection (db w)), [].
  split; [now rewrite app_nil_r|apply authors_kept_refl].
Qed.

Lemma grows_trans (w1 w2 w3 : World) :
  grows w1 w2 -> grows w2 w3 -> grows w1 w3.
Proof.
  intros [[bs1 Hb1] [[us1 Hu1] [k1 [n1 [Ha1 Hk1]]]]]
         [[bs2 Hb2] [[us2 Hu2] [k2 [n2 [Ha2 Hk2]]]]].
  split; [exists (bs1 ++ bs2)%list; now rewrite Hb2, Hb1, app_assoc|].
  split; [exists (us1 ++ us2)%list; now rewrite Hu2, Hu1, app_assoc|].
  rewrite Ha1 in Hk2. apply Forall2_app_inv_l in Hk2.
  destruct Hk2 as [k2a [k2b [Hka [_ ->]]]].
  exists k2a, (k2b ++ n2)%list. split.
  - now rewrite Ha2, app_assoc.
  - now apply (authors_kept_trans _ k1).
Qed.

(** The update of the Author found under a name keeps every Author in
    its place. *)
Lemma update_keeps_authors (n : string) (a a' : Author.t)
  (l : list Author.t) :
  NoDup (map Author._id l) ->
  find (has_name n) l = Some a ->
  Author._id a' = Author._id a ->
  author_kept a a' ->
  Forall2 author_kept l (replace_first (has_author_id (Author._id a')) a' l).
Proof.
  intros Hnd Hf Hid Hkept.
  induction l as [|y r IH]; [discriminate Hf|].
  cbn [find] in Hf. cbn [replace_first].
  cbn [map] in Hnd. apply NoDup_cons_iff in Hnd.
  destruct Hnd as [Hnotin Hnd].
  destruct (has_name n y) eqn:Hy.
  - injection Hf as ->. rewrite Hid, has_author_id_refl.
    constructor; [exact Hkept|apply authors_kept_refl].
  - assert (Hne : has_author_id (Author._id a') y = false).
    { unfold has_author_id. apply Nat.eqb_neq. intros Heq.
      apply Hnotin. rewrite Heq, Hid. apply in_map.
      apply (find_some _ _ Hf). }
    rewrite Hne. constructor; [apply author_kept_refl|now apply IH].
Qed.

Lemma grows_same_db (w w' : World) : db w' = db w -> grows w w'.
Proof.
  intros Hdb. unfold grows. rewrite Hdb. apply grows_refl.
Qed.

Lemma addBook_grows (args : AddBookArgs.t) (ctx : Context.t) (w : World) :
  wf_world w -> grows w (snd (addBook args ctx w)).
Proof.
  intros [Hnd _].
  destruct (Context.currentUser ctx) as [u|] eqn:Hu.
  - assert (Hsome : Context.currentUser ctx <> None) by congruence.
    rewrite (addBook_eq args ctx w Hsome). cbv zeta.
    destruct (first_error _); [now apply grows_same_db|].
    destruct (Book_save_rejects _ _); [now apply grows_same_db|].
    destruct (Author_save_rejects _ _); cbn [snd].
    + split; [eexists; reflexivity|].
      split; [exists []; cbn; now rewrite app_nil_r|].
      exists (Author_collection (db w)), []. cbn.
      split; [now rewrite app_nil_r|apply authors_kept_refl].
    + split; [eexists; reflexivity|].
      split; [exists []; cbn; now rewrite app_nil_r|].
      cbn [db save_author insert_book Author_collection].
      unfold addBook_isNew, addBook_author, addBook_found_or_new.
      destruct (find (has_name (AddBookArgs.author args))
                  (Author_collection (db w))) as [a|] eqn:Hf.
      * eexists _, []. split; [now rewrite app_nil_r|].
        apply (update_keeps_authors (AddBookArgs.author args) a);
          [exact Hnd|exact Hf|reflexivity|].
        repeat split. eexists. reflexivity.
      * eexists _, _. split; [reflexivity|apply authors_kept_refl].
  - unfold Mutation_addBook. rewrite Hu. apply grows_refl.
Qed.

Lemma editAuthor_grows
  (args : EditAuthorArgs.t) (ctx : Context.t) (w : World) :
  wf_world w -> grows w (snd (editAuthor args ctx w)).
Proof.
  intros [Hnd _]. unfold Mutation_editAuthor.
  destruct (Context.currentUser ctx); [|apply grows_refl].
  unfold Author_findOne, Author_save. run_resolver.
  destruct (find (has_name (EditAuthorArgs.name args))
              (Author_collection (db w))) as [a|] eqn:Hf;
    [|apply grows_refl].
  destruct (Author_save_rejects _ _); [apply grows_refl|]. cbn [snd].
  split; [exists []; cbn; now rewrite app_nil_r|].
  split; [exists []; cbn; now rewrite app_nil_r|].
  cbn [db save_author Author_collection].
  eexists _, []. split; [now rewrite app_nil_r|].
  apply (update_keeps_authors (EditAuthorArgs.name args) a);
    [exact Hnd|exact Hf|reflexivity|].
  repeat split. exists []. cbn. now rewrite app_nil_r.
Qed.

Lemma createUser_grows (args : CreateUserArgs.t) (w : World) :
  grows w (snd (createUser args w)).
Proof.
  unfold Mutation_createUser, new_User, new_ObjectId, User_save.
  run_resolver. cbn [db].
  destruct (User_save_rejects _ _); cbn [snd];
    [now apply grows_same_db|].
  split; [exists []; cbn; now rewrite app_nil_r|].
  split; [eexists; reflexivity|].
  exists (Author_collection (db w)), []. cbn.
  split; [now rewrite app_nil_r|apply authors_kept_refl].
Qed.

Lemma perform_grows (c : Call) (w : World) :
  wf_world w -> grows w (fst (perform_call c w)).
Proof.
  intros Hwf. destruct c as [args ctx|args ctx|args|args|args| |j];
    cbn [perform].
  - pose proof (addBook_grows args ctx w Hwf) as H.
    destruct (addBook args ctx w) as [[e|r] w']; exact H.
  - now apply editAuthor_grows.
  - apply createUser_grows.
  - cbn [fst]. rewrite login_unchanged. apply grows_refl.
  - cbn [fst]. rewrite allBooks_unchanged. apply grows_refl.
  - now apply grows_same_db.
  - now apply grows_same_db.
Qed.

(** There is no deletion path.  From a well-formed world, after any
    sequence of calls, every Book and every User stored before is still
    stored, in the same place, and every Author stored before is still in
    its place with the same identifier, the same name and a list of books
    that extends the earlier one. *)
Theorem stored_records_are_kept (cs : list Call) (w : World) :
  wf_world w -> grows w (fst (run_calls cs w)).
Proof.
  revert w. induction cs as [|c r IH]; intros w Hwf; cbn [run].
  - apply grows_refl.
  - pose proof (perform_grows c w Hwf) as Hstep.
    pose proof (perform_wf c w Hwf) as Hwf1.
    destruct (perform_call c w) as [w1 e1]. cbn [fst] in Hstep, Hwf1.
    specialize (IH w1 Hwf1).
    destruct (run_calls r w1) as [w2 e2]. cbn [fst] in *.
    now apply (grows_trans w w1).
Qed.

End Properties.

(** * The properties at the sample data *)

Local Open Scope list_scope.

Lemma sample_wf : wf_world Sample.world.
Proof.
  split; repeat constructor; cbn; intuition lia.
Qed.

Lemma addBook_requires_current_user_witness :
  Context.currentUser Sample.anonymous = None
  /\ Sample.addBook Sample.patterns Sample.anonymous Sample.world
     = (inl (AuthenticationError "not authenticated"), Sample.world).
Proof.
  split; [reflexivity|].
  apply (addBook_requires_current_user Sample.Book_validateSync
           Sample.Author_validateSync Sample.accept_book
           Sample.accept_author Sample.patterns Sample.anonymous
           Sample.world).
  reflexivity.
Defined.

Lemma addBook_validates_before_saving_witness :
  exists w',
    Sample.addBook Sample.untitled Sample.logged_in Sample.world
    = (inl (UserInputError "title is required"
              (Some (ArgsAddBook Sample.untitled))), w')
    /\ db w' = db Sample.world
    /\ pubsub w' = pubsub Sample.world.
Proof.
  apply (addBook_validates_before_saving Sample.Book_validateSync
           Sample.Author_validateSync Sample.accept_book
           Sample.accept_author Sample.untitled Sample.logged_in
           Sample.world (MongooseError "title is required")).
  - discriminate.
  - reflexivity.
Defined.

Lemma login_checks_user_and_literal_witness :
  Sample.login {| LoginArgs.username := "test";
                  LoginArgs.password := "secret" |} Sample.world
  = (inl (UserInputError "wrong credentials" None), Sample.world)
  /\ exists u,
       In u (User_collection (db Sample.world))
       /\ User.username u = "test"
       /\ Sample.login {| LoginArgs.username := "test";
                          LoginArgs.password := "secred" |} Sample.world
          = (inr {| Token.value :=
                      Sample.jwt_sign
                        {| UserForToken.username := User.username u;
                           UserForToken.id := User._id u |}
                        Sample.JWT_SECRET |}, Sample.world).
Proof.
  split.
  - apply (proj1 (login_checks_user_and_literal Sample.JWT_SECRET
                    Sample.jwt_sign
                    {| LoginArgs.username := "test";
                       LoginArgs.password := "secret" |} Sample.world)).
    right. cbn. discriminate.
  - apply (proj2 (login_checks_user_and_literal Sample.JWT_SECRET
                    Sample.jwt_sign
                    {| LoginArgs.username := "test";
                       LoginArgs.password := "secred" |} Sample.world)).
    split; [|reflexivity].
    exists Sample.tester. split; [now left|reflexivity].
Defined.

Lemma editAuthor_unknown_name_witness :
  Sample.editAuthor {| EditAuthorArgs.name := "Nobody";
                       EditAuthorArgs.setBornTo := 1970%Z |}
    Sample.logged_in Sample.world
  = (inl (UserInputError "Author doesn't exist" None), Sample.world).
Proof.
  apply (editAuthor_unknown_name Sample.accept_author).
  - discriminate.
  - intros a [<-|[]]. cbn. discriminate.
Defined.

Lemma addBook_then_allBooks_and_bookCount_witness :
  wf_world Sample.world
  /\ (exists r w',
         Sample.addBook Sample.analysis_patterns Sample.logged_in
           Sample.world = (inr r, w')
         /\ Populated.author r
            = Some (Author.set_books Sample.fowler [1; 3])
         /\ (exists l,
                Query_allBooks {| AllBooksArgs.author := None;
                                  AllBooksArgs.genre := None |} w'
                = (inr l, w')
                /\ In r l)
         /\ Author_findOne "Martin Fowler" w'
            = (inr (Some (Author.set_books Sample.fowler [1; 3])), w')
         /\ Author_bookCount (Author.set_books Sample.fowler [1; 3])
            = S (Author_bookCount Sample.fowler))
  /\ (exists w',
         Sample.addBook Sample.patterns Sample.logged_in Sample.world
         = (inr {| Populated.doc := Sample.refactoring_to_patterns;
                   Populated.author := Some Sample.kerievsky |}, w')
         /\ Author_findOne "Joshua Kerievsky" w'
            = (inr (Some Sample.kerievsky), w')
         /\ Author_bookCount Sample.kerievsky = 1).
Proof.
  split; [exact sample_wf|]. split.
  - destruct (addBook_then_allBooks_and_bookCount Sample.Book_validateSync
                Sample.Author_validateSync Sample.accept_book
                Sample.accept_author Sample.analysis_patterns
                Sample.logged_in Sample.world sample_wf)
      as [Hreturns Hafter].
    destruct (proj2 Hreturns) as [r [w' Hrun]].
    + split; [discriminate|]. repeat split.
    + destruct (Hafter r w' Hrun) as [Hr [Hall [Hfind [Hcount _]]]].
      exists r, w'. split; [exact Hrun|].
      split; [rewrite Hr; reflexivity|]. split; [exact Hall|].
      split; [exact Hfind|]. apply (Hcount Sample.fowler). reflexivity.
  - destruct (addBook_then_allBooks_and_bookCount Sample.Book_validateSync
                Sample.Author_validateSync Sample.accept_book
                Sample.accept_author Sample.patterns Sample.logged_in
                Sample.world sample_wf) as [_ Hafter].
    destruct (Hafter _ _ eq_refl) as [_ [_ [Hfind [_ Hone]]]].
    eexists. split; [reflexivity|]. split; [exact Hfind|].
    apply Hone. reflexivity.
Defined.

Lemma allBooks_genre_nonempty_witness :
  "refactoring" <> "" /\ allBooks_genre_exact "refactoring" Sample.world.
Proof.
  split; [discriminate|].
  apply (allBooks_genre_nonempty "refactoring" Sample.world). discriminate.
Defined.

Lemma allBooks_unknown_author_nonempty_witness :
  "Nobody" <> ""
  /\ allBooks_unknown_author_fails "Nobody" (Some "refactoring")
       Sample.world.
Proof.
  split; [discriminate|].
  apply (allBooks_unknown_author_nonempty "Nobody" (Some "refactoring")
           Sample.world).
  - discriminate.
  - intros a [<-|[]]. cbn. discriminate.
Defined.

Lemma context_downgrades_silently_witness :
  Sample.request_context
    (Some {| Request.authorization := Some "Bearer forged" |}) Sample.world
  = (inr (Some Sample.anonymous), Sample.world)
  /\ Sample.request_context
       (Some {| Request.authorization := Some "bearer s3cr3t.ghost" |})
       Sample.world
     = (inr (Some Sample.anonymous), Sample.world)
  /\ Sample.addBook Sample.patterns Sample.anonymous Sample.world
     = (inl (AuthenticationError "not authenticated"), Sample.world).
Proof.
  pose proof
    (proj2 (context_downgrades_silently Sample.Book_validateSync
              Sample.Author_validateSync Sample.accept_book
              Sample.accept_author Sample.JWT_SECRET Sample.jwt_verify
              (Some {| Request.authorization := Some "Bearer forged" |})
              Sample.world) "Bearer forged" eq_refl eq_refl) as Hforged.
  pose proof
    (proj2 (context_downgrades_silently Sample.Book_validateSync
              Sample.Author_validateSync Sample.accept_book
              Sample.accept_author Sample.JWT_SECRET Sample.jwt_verify
              (Some {| Request.authorization :=
                         Some "bearer s3cr3t.ghost" |})
              Sample.world) "bearer s3cr3t.ghost" eq_refl eq_refl)
    as Hghost.
  cbv zeta in Hforged, Hghost.
  destruct Hforged as [Hctx [_ [Hadd _]]].
  - left. eexists. reflexivity.
  - destruct Hghost as [Hctx' _].
    + right. eexists. split; [reflexivity|].
      intros u [<-|[]]. cbn. discriminate.
    + split; [exact Hctx|]. split; [exact Hctx'|]. apply Hadd.
Defined.


(** * Boundary case: a subscription that is not pulled yet *)


(** * Boundary cases: the empty string as an argument *)

(** C4, as stated for every genre string, fails at the empty string:
    [allBooks(genre: "")] skips the filter and returns the stored Book
    although its genre list does not contain the empty string. *)
Lemma allBooks_genre_empty_counterexample :
  ~ allBooks_genre_exact "" Sample.world.
Proof.
  intros [l [Hrun Hset]].
  assert (Hl : l = [populated (db Sample.world) Sample.refactoring]).
  { cbv in Hrun. injection Hrun as <-. reflexivity. }
  subst l.
  destruct (proj1 (Hset Sample.refactoring)) as [_ Hin].
  - left. reflexivity.
  - destruct Hin as [Heq|[]]. discriminate Heq.
Qed.

(** C10, as stated for every author argument naming no stored Author,
    fails at the empty string: no Author is named by it, yet
    [allBooks(author: "")] does not fail and returns the unfiltered
    list. *)
Lemma allBooks_unknown_author_empty_counterexample :
  (forall a, In a (Author_collection (db Sample.world)) ->
             Author.name a <> "")
  /\ ~ allBooks_unknown_author_fails "" None Sample.world
  /\ Query_allBooks {| AllBooksArgs.author := Some "";
                       AllBooksArgs.genre := None |} Sample.world
     = (inr [populated (db Sample.world) Sample.refactoring], Sample.world).
Proof.
  split; [|split].
  - intros a [<-|[]]. cbn. discriminate.
  - unfold allBooks_unknown_author_fails. cbv. discriminate.
  - reflexivity.
Qed.

(** * Further properties at the sample data *)

Lemma editAuthor_failure_writes_nothing_witness :
  exists e w',
    Mutation_editAuthor Faulty.reject_author
      {| EditAuthorArgs.name := "Martin Fowler";
         EditAuthorArgs.setBornTo := 1970%Z |}
      Sample.logged_in Sample.world = (inl e, w')
    /\ w' = Sample.world.
Proof.
  eexists. eexists. split; [reflexivity|].
  exact (proj1 (editAuthor_failure_writes_nothing Faulty.reject_author
                  {| EditAuthorArgs.name := "Martin Fowler";
                     EditAuthorArgs.setBornTo := 1970%Z |}
                  Sample.logged_in Sample.world _ _ eq_refl)).
Defined.

Lemma editAuthor_updates_in_place_witness :
  exists w',
    Sample.editAuthor
      {| EditAuthorArgs.name := "Martin Fowler";
         EditAuthorArgs.setBornTo := 1970%Z |}
      Sample.logged_in Sample.world
    = (inr (Author.set_born Sample.fowler (Some 1970%Z)), w')
    /\ Author_findOne "Martin Fowler" w'
       = (inr (Some (Author.set_born Sample.fowler (Some 1970%Z))), w').
Proof.
  destruct (editAuthor_updates_in_place Sample.accept_author
              {| EditAuthorArgs.name := "Martin Fowler";
                 EditAuthorArgs.setBornTo := 1970%Z |}
              Sample.logged_in Sample.world Sample.fowler sample_wf)
    as [w' [Hrun [Hfind _]]].
  - discriminate.
  - reflexivity.
  - reflexivity.
  - exists w'. split; [exact Hrun|exact Hfind].
Defined.

Lemma addBook_failure_footprint_witness :
  exists e w',
    Mutation_addBook Sample.Book_validateSync Sample.Author_validateSync
      Sample.accept_book Faulty.reject_author Sample.patterns
      Sample.logged_in Sample.world = (inl e, w')
    /\ pubsub w' = pubsub Sample.world
    /\ Author_collection (db w') = Author_collection (db Sample.world).
Proof.
  eexists. eexists. split; [reflexivity|].
  destruct (addBook_failure_footprint Sample.Book_validateSync
              Sample.Author_validateSync Sample.accept_book
              Faulty.reject_author Sample.patterns Sample.logged_in
              Sample.world _ _ eq_refl) as [Hp [Ha _]].
  split; [exact Hp|exact Ha].
Defined.

Lemma addBook_book_save_refused_witness :
  exists w',
    Mutation_addBook Sample.Book_validateSync Sample.Author_validateSync
      Faulty.reject_book Sample.accept_author Sample.patterns
      Sample.logged_in Sample.world
    = (inl (UserInputError "Book validation failed"
              (Some (ArgsAddBook Sample.patterns))), w')
    /\ db w' = db Sample.world
    /\ pubsub w' = pubsub Sample.world.
Proof.
  apply (addBook_book_save_refused Sample.Book_validateSync
           Sample.Author_validateSync Faulty.reject_book
           Sample.accept_author Sample.patterns Sample.logged_in
           Sample.world (MongooseError "Book validation failed")).
  - discriminate.
  - reflexivity.
  - reflexivity.
Defined.

Lemma addBook_keeps_book_when_author_save_fails_witness :
  exists w',
    Mutation_addBook Sample.Book_validateSync Sample.Author_validateSync
      Sample.accept_book Faulty.reject_author Sample.patterns
      Sample.logged_in Sample.world
    = (inl (UserInputError "Author validation failed"
              (Some (ArgsAddBook Sample.patterns))), w')
    /\ Book_collection (db w')
       = [Sample.refactoring; Sample.refactoring_to_patterns]
    /\ Author_collection (db w') = [Sample.fowler]
    /\ exists l,
         Query_allBooks {| AllBooksArgs.author := None;
                           AllBooksArgs.genre := None |} w' = (inr l, w')
         /\ In {| Populated.doc := Sample.refactoring_to_patterns;
                  Populated.author := None |} l.
Proof.
  destruct (addBook_keeps_book_when_author_save_fails
              Sample.Book_validateSync Sample.Author_validateSync
              Sample.accept_book Faulty.reject_author Sample.patterns
              Sample.logged_in Sample.world
              (MongooseError "Author validation failed"))
    as [w' [Hrun [Hb [Ha [_ Hnull]]]]].
  - discriminate.
  - reflexivity.
  - reflexivity.
  - reflexivity.
  - exists w'. split; [exact Hrun|]. split; [exact Hb|].
    split; [exact Ha|]. apply Hnull; [exact sample_wf|reflexivity].
Defined.

Lemma addBook_links_book_and_author_witness :
  (exists w',
      Sample.addBook Sample.patterns Sample.logged_in Sample.world
      = (inr {| Populated.doc := Sample.refactoring_to_patterns;
                Populated.author := Some Sample.kerievsky |}, w')
      /\ Book_collection (db w')
         = [Sample.refactoring; Sample.refactoring_to_patterns]
      /\ Author_collection (db w') = [Sample.fowler; Sample.kerievsky]
      /\ In (Book._id Sample.refactoring_to_patterns)
           (Author.books Sample.kerievsky))
  /\ (exists r w',
         Sample.addBook Sample.analysis_patterns Sample.logged_in
           Sample.world = (inr r, w')
         /\ author_ids w' = author_ids Sample.world
         /\ In (Author.set_books Sample.fowler [1; 3])
              (Author_collection (db w'))
         /\ Book.author (Populated.doc r) = Some (Author._id Sample.fowler)
         /\ In (Book._id (Populated.doc r))
              (Author.books (Author.set_books Sample.fowler [1; 3]))).
Proof.
  split.
  - eexists. split; [reflexivity|].
    destruct (addBook_links_book_and_author Sample.Book_validateSync
                Sample.Author_validateSync Sample.accept_book
                Sample.accept_author Sample.patterns Sample.logged_in
                Sample.world _ _ sample_wf eq_refl)
      as [Hb [_ [_ [_ [Hin [_ Hnew]]]]]].
    split; [exact Hb|]. split; [|exact Hin].
    apply (proj1 (Hnew eq_refl)).
  - eexists. eexists. split; [reflexivity|].
    destruct (addBook_links_book_and_author Sample.Book_validateSync
                Sample.Author_validateSync Sample.accept_book
                Sample.accept_author Sample.analysis_patterns
                Sample.logged_in Sample.world _ _ sample_wf eq_refl)
      as [_ [_ [Hstored [Href [Hin [Hold _]]]]]].
    split; [apply (proj1 (Hold Sample.fowler eq_refl))|].
    split; [exact Hstored|]. split; [exact Href|exact Hin].
Defined.

Lemma allBooks_by_author_witness :
  exists l,
    Query_allBooks {| AllBooksArgs.author := Some "Martin Fowler";
                      AllBooksArgs.genre := Some "refactoring" |}
      Sample.world = (inr l, Sample.world)
    /\ (In Sample.refactoring (map Populated.doc l)
        <-> In Sample.refactoring (Book_collection (db Sample.world))
            /\ Book.author Sample.refactoring = Some 0
            /\ genre_lets_through (Some "refactoring") Sample.refactoring).
Proof.
  destruct (allBooks_by_author "Martin Fowler" (Some "refactoring")
              Sample.world Sample.fowler) as [l [Hrun [Hset _]]].
  - discriminate.
  - reflexivity.
  - exists l. split; [exact Hrun|apply (Hset Sample.refactoring)].
Defined.

Lemma allBooks_reads_only_witness :
  snd (Query_allBooks {| AllBooksArgs.author := Some "Nobody";
                         AllBooksArgs.genre := None |} Sample.world)
  = Sample.world
  /\ exists n,
       Some "Nobody" = Some n /\ n <> ""
       /\ Author_findOne n Sample.world = (inr None, Sample.world).
Proof.
  destruct (allBooks_reads_only
              {| AllBooksArgs.author := Some "Nobody";
                 AllBooksArgs.genre := None |} Sample.world)
    as [Hsame [_ Herr]].
  split; [exact Hsame|].
  exact (proj2 (Herr _ eq_refl)).
Defined.

Lemma addBook_then_allBooks_by_author_witness :
  exists w' l,
    Sample.addBook Sample.patterns Sample.logged_in Sample.world
    = (inr {| Populated.doc := Sample.refactoring_to_patterns;
              Populated.author := Some Sample.kerievsky |}, w')
    /\ Query_allBooks {| AllBooksArgs.author := Some "Joshua Kerievsky";
                         AllBooksArgs.genre := None |} w' = (inr l, w')
    /\ In {| Populated.doc := Sample.refactoring_to_patterns;
             Populated.author := Some Sample.kerievsky |} l.
Proof.
  assert (Hn : AddBookArgs.author Sample.patterns <> "") by discriminate.
  destruct (addBook_then_allBooks_by_author Sample.Book_validateSync
              Sample.Author_validateSync Sample.accept_book
              Sample.accept_author Sample.patterns Sample.logged_in
              Sample.world _ _ sample_wf Hn eq_refl) as [l [Hrun [Hin _]]].
  eexists. exists l. split; [reflexivity|].
  split; [exact Hrun|exact Hin].
Defined.

Lemma addBook_then_allBooks_by_genre_witness :
  exists w' l,
    Sample.addBook Sample.patterns Sample.logged_in Sample.world
    = (inr {| Populated.doc := Sample.refactoring_to_patterns;
              Populated.author := Some Sample.kerievsky |}, w')
    /\ Query_allBooks {| AllBooksArgs.author := None;
                         AllBooksArgs.genre := Some "patterns" |} w'
       = (inr l, w')
    /\ In {| Populated.doc := Sample.refactoring_to_patterns;
             Populated.author := Some Sample.kerievsky |} l.
Proof.
  assert (Hg : "patterns" <> "") by discriminate.
  destruct (addBook_then_allBooks_by_genre Sample.Book_validateSync
              Sample.Author_validateSync Sample.accept_book
              Sample.accept_author Sample.patterns Sample.logged_in
              Sample.world _ _ "patterns" Hg eq_refl) as [l [Hrun Hiff]].
  eexists. exists l. split; [reflexivity|]. split; [exact Hrun|].
  apply Hiff. right. now left.
Defined.

Lemma createUser_refused_witness :
  exists w',
    Mutation_createUser Faulty.reject_user
      {| CreateUserArgs.username := "test";
         CreateUserArgs.favoriteGenre := "patterns" |} Sample.world
    = (inl (UserInputError "User validation failed"
              (Some (ArgsCreateUser
                       {| CreateUserArgs.username := "test";
                          CreateUserArgs.favoriteGenre := "patterns" |}))),
       w')
    /\ db w' = db Sample.world
    /\ pubsub w' = pubsub Sample.world.
Proof.
  apply (createUser_refused Faulty.reject_user
           {| CreateUserArgs.username := "test";
              CreateUserArgs.favoriteGenre := "patterns" |} Sample.world
           (MongooseError "User validation failed")).
  reflexivity.
Defined.

Lemma createUser_then_login_witness :
  exists u w',
    Mutation_createUser Sample.accept_user
      {| CreateUserArgs.username := "reader";
         CreateUserArgs.favoriteGenre := "patterns" |} Sample.world
    = (inr u, w')
    /\ User_collection (db w') = [Sample.tester; u]
    /\ Sample.login {| LoginArgs.username := "reader";
                       LoginArgs.password := "secred" |} w'
       = (inr {| Token.value := "s3cr3t.reader" |}, w').
Proof.
  eexists. eexists. split; [reflexivity|].
  destruct (createUser_then_login Sample.accept_user Sample.JWT_SECRET
              Sample.jwt_sign
              {| CreateUserArgs.username := "reader";
                 CreateUserArgs.favoriteGenre := "patterns" |}
              Sample.world _ _ eq_refl)
    as [_ [_ [Hu [_ [_ Hlogin]]]]].
  - intros v [<-|[]]. cbn. discriminate.
  - split; [exact Hu|exact Hlogin].
Defined.

Lemma context_resolves_current_user_witness :
  Sample.request_context
    (Some {| Request.authorization := Some "Bearer s3cr3t.test" |})
    Sample.world
  = (inr (Some Sample.logged_in), Sample.world)
  /\ Query_me Sample.logged_in Sample.world
     = (inr Sample.tester, Sample.world).
Proof.
  destruct (context_resolves_current_user Sample.JWT_SECRET
              Sample.jwt_verify "Bearer " "s3cr3t.test" Sample.world
              {| UserForToken.username := "test"; UserForToken.id := 2 |}
              Sample.tester eq_refl eq_refl eq_refl)
    as [Hctx [Hme _]].
  split; [exact Hctx|exact Hme].
Defined.

Lemma context_undefined_iff_witness :
  Sample.request_context
    (Some {| Request.authorization := Some "Basic dGVzdDpzZWNyZWQ=" |})
    Sample.world
  = (inr None, Sample.world).
Proof.
  apply (proj2 (context_undefined_iff Sample.JWT_SECRET Sample.jwt_verify
                  (Some {| Request.authorization :=
                             Some "Basic dGVzdDpzZWNyZWQ=" |})
                  Sample.world)).
  intros a Ha. injection Ha as <-. reflexivity.
Defined.

Lemma login_then_request_is_authenticated_witness :
  exists token,
    Sample.login {| LoginArgs.username := "test";
                    LoginArgs.password := "secred" |} Sample.world
    = (inr token, Sample.world)
    /\ exists u,
         User.username u = "test"
         /\ Sample.request_context
              (Some {| Request.authorization :=
                         Some ("BEARER " ++ Token.value token)%string |})
              Sample.world
            = (inr (Some {| Context.currentUser := Some u |}),
               Sample.world).
Proof.
  eexists. split; [reflexivity|].
  destruct (login_then_request_is_authenticated Sample.JWT_SECRET
              Sample.jwt_sign Sample.jwt_verify
              {| LoginArgs.username := "test";
                 LoginArgs.password := "secred" |}
              Sample.world Sample.world
              {| Token.value := "s3cr3t.test" |} "BEARER ")
    as [u [_ [Hname [_ [Hctx _]]]]].
  - repeat constructor. intros [].
  - intros u [<-|[]]. reflexivity.
  - reflexivity.
  - reflexivity.
  - exists u. split; [exact Hname|exact Hctx].
Defined.

Lemma stored_records_are_kept_witness :
  wf_world Sample.world
  /\ grows Sample.world
       (fst (Sample.run_calls
               [CallAddBook Sample.patterns Sample.logged_in;
                CallEditAuthor
                  {| EditAuthorArgs.name := "Martin Fowler";
                     EditAuthorArgs.setBornTo := 1970%Z |}
                  Sample.logged_in;
                CallCreateUser
                  {| CreateUserArgs.username := "reader";
                     CreateUserArgs.favoriteGenre := "patterns" |}]
               Sample.world)).
Proof.
  split; [exact sample_wf|].
  apply (stored_records_are_kept Sample.Book_validateSync
           Sample.Author_validateSync Sample.accept_book
           Sample.accept_author Sample.accept_user Sample.JWT_SECRET
           Sample.jwt_sign).
  exact sample_wf.
Defined.
